(** * Worktree Rainbow: a shallow embedding of [src/extension.ts]

    The extension colours the editor chrome per git branch.  This file
    embeds its colour utilities, its configuration merge, its branch-change
    handler, its two commands and its per-repository watcher, and proves
    the properties the specification states about them.

    JavaScript numbers are IEEE-754 binary64 values: they are modelled by
    Rocq's primitive [float], so that every rounding of the source is the
    rounding of the model.  JavaScript strings are modelled by [string]
    (code units below 256). *)

From Stdlib Require Import ZArith List Ascii String HexadecimalString Floats Lia.
From stdpp Require Import gmap strings.

Import ListNotations.
Local Open Scope string_scope.

(** ** The part of the JavaScript runtime the source relies on *)

Module JS.

(** *** Numbers *)

(** An integer-valued Number, the range of [Math.round], [Math.floor] and
    [parseInt]: NaN, an infinity, negative zero, or a mathematical integer. *)
Inductive integral :=
  | INaN
  | IInf (neg : bool)
  | INegZero
  | IInt (z : Z).

(** The binary64 value nearest to an integer (ties to even). *)
Definition float_of_Z (z : Z) : float :=
  SF2Prim (binary_normalize prec emax z 0 false).

Definition to_float (i : integral) : float :=
  match i with
  | INaN => nan
  | IInf false => infinity
  | IInf true => neg_infinity
  | INegZero => neg_zero
  | IInt z => float_of_Z z
  end.

Definition signed (s : bool) (m : positive) : Z :=
  if s then Z.neg m else Z.pos m.

(** The integer part of [m / 2^k], rounded down, and [m / 2^k] rounded to
    the nearest integer with a tie going up, that is [floor (m / 2^k + 1/2)];
    both on integers, hence exact. *)
Definition floor_shift (m k : Z) : Z := Z.shiftr m k.

Definition round_half_up (m k : Z) : Z :=
  Z.shiftr (2 * m + Z.shiftl 1 k) (k + 1).

(** [Math.floor]: the greatest integer not above [x], where [x] is
    [(-1)^s * m * 2^e]. *)
Definition floor_integral (x : float) : integral :=
  match Prim2SF x with
  | S754_nan => INaN
  | S754_infinity s => IInf s
  | S754_zero s => if s then INegZero else IInt 0
  | S754_finite s m e =>
      if (0 <=? e)%Z then IInt (Z.shiftl (signed s m) e)
      else IInt (floor_shift (signed s m) (- e))
  end.

Definition Math_floor (x : float) : float := to_float (floor_integral x).

(** [Math.round]: the integer nearest to [x], a tie going towards
    +infinity; a result of zero keeps the sign of [x]. *)
Definition Math_round (x : float) : integral :=
  match Prim2SF x with
  | S754_nan => INaN
  | S754_infinity s => IInf s
  | S754_zero s => if s then INegZero else IInt 0
  | S754_finite s m e =>
      if (0 <=? e)%Z then IInt (Z.shiftl (signed s m) e)
      else
        let n := round_half_up (signed s m) (- e) in
        if s && (n =? 0)%Z then INegZero else IInt n
  end.

(** [Math.min] and [Math.max] over their argument list: NaN is
    contagious and [-0] is below [+0]. *)
Definition min2 (a b : float) : float :=
  if is_nan a || is_nan b then nan
  else if (b <? a)%float then b
  else if (a <? b)%float then a
  else if get_sign a then a else b.

Definition max2 (a b : float) : float :=
  if is_nan a || is_nan b then nan
  else if (a <? b)%float then b
  else if (b <? a)%float then a
  else if get_sign a then b else a.

Definition Math_min (xs : list float) : float := fold_left min2 xs infinity.
Definition Math_max (xs : list float) : float := fold_left max2 xs neg_infinity.

(** The [%] operator on Numbers (the remainder of a truncating division,
    with the sign of the dividend).  Both operands are brought to a common
    exponent, so the remainder is taken on integers and is exact. *)
Definition rem (n d : float) : float :=
  match Prim2SF n, Prim2SF d with
  | S754_nan, _ | _, S754_nan => nan
  | S754_infinity _, _ => nan
  | _, S754_zero _ => nan
  | _, S754_infinity _ => n
  | S754_zero _, _ => n
  | S754_finite sn mn en, S754_finite _ md ed =>
      let e := Z.min en ed in
      let N := Z.shiftl (Z.pos mn) (en - e) in
      let D := Z.shiftl (Z.pos md) (ed - e) in
      let R := Z.modulo N D in
      SF2Prim (binary_normalize prec emax (if sn then - R else R)%Z e sn)
  end.

(** *** Strings *)

(** [s.slice(a, b)] for [0 <= a <= b]. *)
Definition slice (s : string) (a b : nat) : string := substring a (b - a) s.

Definition padStart2 (s : string) : string :=
  match String.length s with
  | 0 => "00"
  | 1 => "0" ++ s
  | _ => s
  end.

(** [n.toString(16)] for an integer-valued Number [n]: lower-case
    digits, no leading zero, a minus sign for a negative value. *)
Definition toString16 (i : integral) : string :=
  match i with
  | INaN => "NaN"
  | IInf false => "Infinity"
  | IInf true => "-Infinity"
  | INegZero => "0"
  | IInt z => HexadecimalString.NilZero.string_of_int (Z.to_hex_int z)
  end.

(** [parseInt(s, 16)]: leading white space, an optional sign and an
    optional [0x] prefix are skipped, then the longest run of hexadecimal
    digits is read; no digit at all gives NaN. *)
Definition is_space (c : ascii) : bool :=
  match nat_of_ascii c with
  | 9 | 10 | 11 | 12 | 13 | 32 | 160 => true
  | _ => false
  end.

Fixpoint trim_left (s : string) : string :=
  match s with
  | String c s' => if is_space c then trim_left s' else s
  | EmptyString => s
  end.

Definition digit16 (c : ascii) : option Z :=
  let n := Z.of_nat (nat_of_ascii c) in
  if ((48 <=? n) && (n <=? 57))%Z then Some (n - 48)%Z
  else if ((97 <=? n) && (n <=? 102))%Z then Some (n - 87)%Z
  else if ((65 <=? n) && (n <=? 70))%Z then Some (n - 55)%Z
  else None.

Fixpoint digits16 (s : string) (acc : option Z) : option Z :=
  match s with
  | String c s' =>
      match digit16 c with
      | Some d => digits16 s' (Some (16 * default 0 acc + d)%Z)
      | None => acc
      end
  | EmptyString => acc
  end.

Definition strip_sign (s : string) : bool * string :=
  match s with
  | String "-" s' => (true, s')
  | String "+" s' => (false, s')
  | _ => (false, s)
  end.

Definition strip_0x (s : string) : string :=
  match s with
  | String "0" (String "x" s') => s'
  | String "0" (String "X" s') => s'
  | _ => s
  end.

Definition parseInt16 (s : string) : integral :=
  let '(neg, s1) := strip_sign (trim_left s) in
  match digits16 (strip_0x s1) None with
  | None => INaN
  | Some 0%Z => if neg then INegZero else IInt 0
  | Some z => IInt (if neg then - z else z)
  end.

End JS.

(** ** Colour utilities *)

(** [Math.pow] is the host's: the language leaves its precision to the
    implementation, so it is a parameter of the development, as is the
    platform's path separator. *)
Class Host := {
  Math_pow : float -> float -> float;
  (** [path.sep], the platform's path separator. *)
  path_sep : string
}.

#[local] Set Warnings "-inexact-float,-register-all".

Section Color.
Context `{Host}.
Local Open Scope float_scope.

(** The formatter of a channel in [hslToHex]:
    [Math.round(x).toString(16).padStart(2, "0")]. *)
Definition hex2 (x : float) : string :=
  JS.padStart2 (JS.toString16 (JS.Math_round x)).

Definition hslToHex (h s l : float) : string :=
  let s := s / 100 in
  let l := l / 100 in
  let a := s * JS.Math_min [l; 1 - l] in
  let f (n : float) : string :=
    let k := JS.rem (n + h / 30) 12 in
    let color := l - a * JS.Math_max [JS.Math_min [k - 3; 9 - k; 1]; -1] in
    hex2 (255 * color) in
  "#" ++ f 0 ++ f 8 ++ f 4.

Definition channel (hex : string) (a b : nat) : float :=
  JS.to_float (JS.parseInt16 (JS.slice hex a b)).

Definition darken (hex : string) (amount : float) : string :=
  let r := channel hex 1 3 in
  let g := channel hex 3 5 in
  let b := channel hex 5 7 in
  let dr := JS.Math_round (r * (1 - amount)) in
  let dg := JS.Math_round (g * (1 - amount)) in
  let db := JS.Math_round (b * (1 - amount)) in
  "#" ++ JS.padStart2 (JS.toString16 dr)
      ++ JS.padStart2 (JS.toString16 dg)
      ++ JS.padStart2 (JS.toString16 db).

Definition toLinear (c : float) : float :=
  if c <=? 0.03928 then c / 12.92 else Math_pow ((c + 0.055) / 1.055) 2.4.

Definition luminance (hex : string) : float :=
  let r := channel hex 1 3 / 255 in
  let g := channel hex 3 5 / 255 in
  let b := channel hex 5 7 / 255 in
  0.2126 * toLinear r + 0.7152 * toLinear g + 0.0722 * toLinear b.

Definition contrastForeground (hex : string) : string :=
  if 0.179 <? luminance hex then "#000000" else "#ffffff".

End Color.

(** ** The data model *)

(** A value of the shared configuration blob ([unknown] in the source). *)
Inductive jsvalue :=
  | JNull
  | JBool (b : bool)
  | JNumber (n : float)
  | JString (s : string)
  | JArray (xs : list jsvalue)
  | JObject (fields : list (string * jsvalue)).

(** [Record<string, unknown>]: the value of [workbench.colorCustomizations]. *)
Abbreviation blob := (gmap string jsvalue).

(** [interface Branch { name?: string }]. *)
Record Branch := { name : option string }.

(** [interface Repository]: [rootUri] stands for [rootUri.fsPath] and
    [HEAD] for [state.HEAD]. *)
Record Repository := { rootUri : string; HEAD : option Branch }.

(** [repo.state.HEAD?.name]. *)
Definition HEAD_name (repo : Repository) : option string :=
  match HEAD repo with
  | Some b => name b
  | None => None
  end.

(** What the extension does to its host, in order. *)
Inductive Event :=
  | EvGlobalStateGet (key : string)
  | EvGlobalStateUpdate (key : string) (value : option string)
  | EvConfigUpdate (value : option blob)
  | EvWarning (msg : string)
  | EvInformation (msg : string).

(** The host as the extension sees it. *)
Record World := {
  (** [git.repositories] *)
  repositories : list Repository;
  (** [vscode.window.activeTextEditor?.document.uri.fsPath] *)
  activeDocument : option string;
  (** the setting [worktreeRainbow.defaultBranches], when set *)
  defaultBranches : option (list string);
  (** the setting [workbench.colorCustomizations], when set *)
  colorCustomizations : option blob;
  (** [context.globalState] *)
  globalState : gmap string string;
  (** the values [Math.random] returns, and how many were drawn *)
  random : nat -> float;
  drawn : nat;
  (** the host calls made so far, latest first *)
  events : list Event
}.

(** ** Host calls and programs over them *)

Inductive eff : Type -> Type :=
  | GetRepositories : eff (list Repository)
  | GetActiveDocument : eff (option string)
  | GetDefaultBranches : eff (option (list string))
  | GetColorCustomizations : eff (option blob)
  | UpdateColorCustomizations (value : option blob) : eff unit
  | GlobalStateGet (key : string) : eff (option string)
  | GlobalStateUpdate (key : string) (value : option string) : eff unit
  | MathRandom : eff float
  | ShowWarningMessage (msg : string) : eff unit
  | ShowInformationMessage (msg : string) : eff unit.

(** A program is a finite tree of host calls. *)
Inductive prog (A : Type) : Type :=
  | Ret (a : A)
  | Vis {X : Type} (e : eff X) (k : X -> prog A).
Arguments Ret {A} a.
Arguments Vis {A X} e k.

Fixpoint bind {A B} (p : prog A) (f : A -> prog B) : prog B :=
  match p with
  | Ret a => f a
  | Vis e k => Vis e (fun x => bind (k x) f)
  end.

Definition call {X} (e : eff X) : prog X := Vis e Ret.

#[global] Instance prog_ret : MRet prog := @Ret.
#[global] Instance prog_bind : MBind prog := fun A B f p => bind p f.

Definition log (ev : Event) (w : World) : World :=
  {| repositories := repositories w; activeDocument := activeDocument w;
     defaultBranches := defaultBranches w;
     colorCustomizations := colorCustomizations w;
     globalState := globalState w; random := random w; drawn := drawn w;
     events := ev :: events w |}.

Definition set_colorCustomizations (v : option blob) (w : World) : World :=
  {| repositories := repositories w; activeDocument := activeDocument w;
     defaultBranches := defaultBranches w;
     colorCustomizations := v;
     globalState := globalState w; random := random w; drawn := drawn w;
     events := events w |}.

Definition set_globalState (g : gmap string string) (w : World) : World :=
  {| repositories := repositories w; activeDocument := activeDocument w;
     defaultBranches := defaultBranches w;
     colorCustomizations := colorCustomizations w;
     globalState := g; random := random w; drawn := drawn w;
     events := events w |}.

Definition draw (w : World) : World :=
  {| repositories := repositories w; activeDocument := activeDocument w;
     defaultBranches := defaultBranches w;
     colorCustomizations := colorCustomizations w;
     globalState := globalState w; random := random w; drawn := S (drawn w);
     events := events w |}.

(** One host call.  [globalState.update(key, undefined)] removes the key;
    [config.update(.., undefined, ..)] unsets the setting.  Host calls are
    taken to succeed, so the [catch] branches of the source, which log and
    report a failure, have no counterpart here. *)
Definition handle {X} (e : eff X) (w : World) : X * World :=
  match e in eff X return X * World with
  | GetRepositories => (repositories w, w)
  | GetActiveDocument => (activeDocument w, w)
  | GetDefaultBranches => (defaultBranches w, w)
  | GetColorCustomizations => (colorCustomizations w, w)
  | UpdateColorCustomizations v =>
      (tt, log (EvConfigUpdate v) (set_colorCustomizations v w))
  | GlobalStateGet key =>
      (globalState w !! key, log (EvGlobalStateGet key) w)
  | GlobalStateUpdate key v =>
      (tt, log (EvGlobalStateUpdate key v)
             (set_globalState
                (match v with
                 | Some c => <[key:=c]> (globalState w)
                 | None => delete key (globalState w)
                 end) w))
  | MathRandom => (random w (drawn w), draw w)
  | ShowWarningMessage msg => (tt, log (EvWarning msg) w)
  | ShowInformationMessage msg => (tt, log (EvInformation msg) w)
  end.

(** A program run to completion. *)
Fixpoint run {A} (p : prog A) (w : World) : A * World :=
  match p with
  | Ret a => (a, w)
  | Vis e k => let '(x, w') := handle e w in run (k x) w'
  end.

Definition exec {A} (p : prog A) (w : World) : World := snd (run p w).

(** ** Core logic *)

Section Core.
Context `{Host}.

Definition randomHsl : prog (float * float * float) :=
  r1 ← call MathRandom;
  let h := JS.Math_floor (r1 * 360)%float in
  r2 ← call MathRandom;
  let s := (60 + JS.Math_floor (r2 * 20))%float in
  r3 ← call MathRandom;
  let l := (40 + JS.Math_floor (r3 * 10))%float in
  mret (h, s, l).

Definition generateRandomColor : prog string :=
  '(h, s, l) ← randomHsl;
  mret (hslToHex h s l).

Definition colorKey (repoPath branchName : string) : string :=
  ("colors:" ++ repoPath ++ ":" ++ branchName).

(** [xs.includes(x)] on an array of strings. *)
Definition includes (xs : list string) (x : string) : bool :=
  existsb (String.eqb x) xs.

Definition isDefaultBranch (branchName : string) : prog bool :=
  setting ← call GetDefaultBranches;
  let defaults := default ["main"; "master"] setting in
  mret (includes defaults branchName).

(** [s.startsWith(p)] is [String.prefix p s]; the loop over
    [git.repositories] carries [best] and [bestLen]. *)
Definition resolveRepository : prog (option Repository) :=
  uri ← call GetActiveDocument;
  repos ← call GetRepositories;
  mret
    match uri with
    | Some fsPath =>
        let '(best, _) :=
          fold_left
            (fun (acc : option Repository * Z) repo =>
               let '(best, bestLen) := acc in
               let root := rootUri repo in
               let isMatch :=
                 String.eqb fsPath root
                 || String.prefix (root ++ path_sep) fsPath in
               if isMatch && (bestLen <? Z.of_nat (String.length root))%Z
               then (Some repo, Z.of_nat (String.length root))
               else acc)
            repos (None, (-1)%Z) in
        match best with
        | Some repo => Some repo
        | None => head repos
        end
    | None => head repos
    end.

Definition applyColor (color : string) : prog unit :=
  let fg := contrastForeground color in
  let inactiveBg := darken color 0.3%float in
  let inactiveFg := contrastForeground inactiveBg in
  setting ← call GetColorCustomizations;
  let existing : blob := default ∅ setting in
  let updated : blob :=
    <["statusBar.foreground" := JString fg]>
    (<["statusBar.background" := JString color]>
    (<["titleBar.inactiveForeground" := JString inactiveFg]>
    (<["titleBar.inactiveBackground" := JString inactiveBg]>
    (<["titleBar.activeForeground" := JString fg]>
    (<["titleBar.activeBackground" := JString color]> existing))))) in
  call (UpdateColorCustomizations (Some updated)).

Definition MANAGED_KEYS : list string := [
  "titleBar.activeBackground";
  "titleBar.activeForeground";
  "titleBar.inactiveBackground";
  "titleBar.inactiveForeground";
  "statusBar.background";
  "statusBar.foreground"
].

(** The loop of [clearColor] over [Object.entries(existing)]. *)
Definition cleaned_of (existing : blob) : blob :=
  fold_left
    (fun (cleaned : blob) '(key, value) =>
       if negb (includes MANAGED_KEYS key) then <[key:=value]> cleaned
       else cleaned)
    (map_to_list existing) ∅.

Definition clearColor : prog unit :=
  setting ← call GetColorCustomizations;
  let existing : blob := default ∅ setting in
  let cleaned := cleaned_of existing in
  let target := if (0 <? size cleaned)%nat then Some cleaned else None in
  call (UpdateColorCustomizations target).

(** [!x] on an optional string: [undefined] and the empty string are the
    falsy values. *)
Definition falsy (x : option string) : bool :=
  match x with
  | None => true
  | Some s => String.eqb s EmptyString
  end.

Definition handleBranchChange (repo : Repository) : prog unit :=
  let branchName := HEAD_name repo in
  if falsy branchName then clearColor
  else
    let branchName := default EmptyString branchName in
    isDefault ← isDefaultBranch branchName;
    if isDefault : bool then clearColor
    else
      let repoPath := rootUri repo in
      let key := colorKey repoPath branchName in
      stored ← call (GlobalStateGet key);
      color ← (if falsy stored then
                 color ← generateRandomColor;
                 call (GlobalStateUpdate key (Some color));;
                 mret color
               else mret (default EmptyString stored));
      applyColor color.

(** A name between double quotes, as the messages show it. *)
Definition quoted (s : string) : string :=
  let q := String (ascii_of_nat 34) EmptyString in (q ++ s ++ q).

(** The command [worktreeRainbow.reroll]. *)
Definition reroll : prog unit :=
  repo ← resolveRepository;
  match repo with
  | None => call (ShowWarningMessage "Worktree Rainbow: No git repository found.")
  | Some repo =>
      let branchName := HEAD_name repo in
      if falsy branchName then
        call (ShowWarningMessage "Worktree Rainbow: No branch detected.")
      else
        let branchName := default EmptyString branchName in
        isDefault ← isDefaultBranch branchName;
        if isDefault : bool then
          call (ShowInformationMessage
                  ("Worktree Rainbow: " ++ quoted branchName
                   ++ " is a default branch (no color applied)."))
        else
          let repoPath := rootUri repo in
          let key := colorKey repoPath branchName in
          color ← generateRandomColor;
          call (GlobalStateUpdate key (Some color));;
          applyColor color;;
          call (ShowInformationMessage
                  ("Worktree Rainbow: New color " ++ color ++ " for "
                   ++ quoted branchName))
  end.

(** The command [worktreeRainbow.clear]. *)
Definition clear : prog unit :=
  repo ← resolveRepository;
  match repo with
  | Some repo =>
      let branchName := HEAD_name repo in
      if falsy branchName then mret tt
      else
        let branchName := default EmptyString branchName in
        let repoPath := rootUri repo in
        let key := colorKey repoPath branchName in
        call (GlobalStateUpdate key None)
  | None => mret tt
  end;;
  clearColor;;
  call (ShowInformationMessage "Worktree Rainbow: Color cleared.").

End Core.

(** ** The watcher of [activate]

    [watchRepo] keeps, per repository, the last branch name it enqueued
    work for and the variable [pending], a promise.  The promises of the
    chain are kept in a table: promise 0 is [Promise.resolve()], promise
    [n > 0] is the one the n-th call [pending.then(cb)] returned.  The
    callback of that call is named [n] as well: the runtime puts it in
    the job queue once the promise it was chained on is fulfilled, calling
    it starts a handler, and promise [n] is fulfilled once that handler has
    run to its end (its [catch] turns a failure into a fulfilled promise
    as well).  A started handler advances one host call at a time; between
    any two steps the provider may move [HEAD], [onDidChange] may fire, or
    another party may act on the host. *)

(** A promise of the chain: not settled yet, with the callbacks chained on
    it, or fulfilled. *)
Inductive promise :=
  | Unsettled (reactions : list nat)
  | Fulfilled.

(** What happened to the chain, for stating the order of processing. *)
Inductive Mark :=
  | Enqueued (ticket : nat) (branch : option string)
  | Started (ticket : nat)
  | Finished (ticket : nat).

Record Watcher := {
  (** the host *)
  host : World;
  (** the watched repository; the provider moves its [HEAD] *)
  repo : Repository;
  lastBranch : option string;
  (** the variable [pending]: a promise of the table *)
  pending : nat;
  (** the promises created so far, and how many [then] created *)
  promises : gmap nat promise;
  issued : nat;
  (** the job queue: callbacks ready to be called, oldest first *)
  jobs : list nat;
  (** the handlers started and not ended, each with what remains of it *)
  active : list (nat * prog unit);
  (** the marks so far, latest first *)
  marks : list Mark
}.


Section Watch.
Context `{Host}.
Local Open Scope list_scope.

(** The closure [enqueue] of [watchRepo]; [!==] on optional strings is
    disequality.  [pending.then(cb)] creates a promise, and hands [cb] to
    the job queue when [pending] is fulfilled already, to [pending]
    otherwise. *)
Definition enqueue (s : Watcher) : Watcher :=
  let current := HEAD_name (repo s) in
  if bool_decide (current = lastBranch s) then s
  else
    let n := S (issued s) in
    let '(table, queue) :=
      match promises s !! pending s with
      | Some (Unsettled reactions) =>
          (<[pending s := Unsettled (reactions ++ [n])]> (promises s), jobs s)
      | _ => (promises s, jobs s ++ [n])
      end in
    {| host := host s; repo := repo s;
       lastBranch := current;
       pending := n;
       promises := <[n := Unsettled []]> table;
       issued := n;
       jobs := queue;
       active := active s;
       marks := Enqueued n current :: marks s |}.

(** [watchRepo(repo)]: fresh variables, then [enqueue()] once, then the
    subscription of [enqueue] to [onDidChange] (the input [Change]). *)
Definition watchRepo (r : Repository) (w : World) : Watcher :=
  enqueue {| host := w; repo := r; lastBranch := None;
             pending := 0; promises := {[ 0 := Fulfilled ]}; issued := 0;
             jobs := []; active := []; marks := [] |}.

(** The runtime calls the oldest callback of the job queue:
    [handleBranchChange(context, repo)] starts, on the repository as it is
    now. *)
Definition run_job (s : Watcher) : Watcher :=
  match jobs s with
  | n :: rest =>
      {| host := host s; repo := repo s; lastBranch := lastBranch s;
         pending := pending s; promises := promises s; issued := issued s;
         jobs := rest;
         active := active s ++ [(n, handleBranchChange (repo s))];
         marks := Started n :: marks s |}
  | [] => s
  end.

(** The i-th active handler makes its next host call; at its end its
    promise is fulfilled and the callbacks chained on it join the job
    queue. *)
Definition advance (i : nat) (s : Watcher) : Watcher :=
  match active s !! i with
  | Some (n, Vis e k) =>
      let '(x, w') := handle e (host s) in
      {| host := w'; repo := repo s; lastBranch := lastBranch s;
         pending := pending s; promises := promises s; issued := issued s;
         jobs := jobs s;
         active := <[i := (n, k x)]> (active s);
         marks := marks s |}
  | Some (n, Ret _) =>
      let reactions :=
        match promises s !! n with
        | Some (Unsettled reactions) => reactions
        | _ => []
        end in
      {| host := host s; repo := repo s; lastBranch := lastBranch s;
         pending := pending s;
         promises := <[n := Fulfilled]> (promises s);
         issued := issued s;
         jobs := jobs s ++ reactions;
         active := delete i (active s);
         marks := Finished n :: marks s |}
  | None => s
  end.



(** The event loop left alone: it calls a ready callback if there is one,
    and lets the first active handler advance otherwise. *)
Definition tick (s : Watcher) : Watcher :=
  match jobs s with
  | [] => advance 0 s
  | _ :: _ => run_job s
  end.

Fixpoint ticks (n : nat) (s : Watcher) : Watcher :=
  match n with
  | 0 => s
  | S n' => ticks n' (tick s)
  end.

End Watch.

(** The marks of handler runs, oldest first. *)
Definition runs (ms : list Mark) : list Mark :=
  rev (omap (fun m => match m with Enqueued _ _ => None | _ => Some m end) ms).

(** The branch names work was enqueued for, latest first. *)
Definition enqueued_names (ms : list Mark) : list (option string) :=
  omap (fun m => match m with Enqueued _ b => Some b | _ => None end) ms.

(** The tickets enqueued, oldest first. *)
Definition enqueued_tickets (ms : list Mark) : list nat :=
  rev (omap (fun m => match m with Enqueued t _ => Some t | _ => None end) ms).

(** The last branch name work was enqueued for, if any was. *)
Definition last_enqueued (ms : list Mark) : option (option string) :=
  head (enqueued_names ms).

(** Handlers [1 .. n] run one after the other, each to its end. *)
Definition in_sequence (n : nat) : list Mark :=
  flat_map (fun t => [Started t; Finished t]) (seq 1 n).

(** The [Started] mark of the handlers that have not ended. *)
Definition started_only (s : Watcher) : list Mark :=
  map (fun a => Started (fst a)) (active s).

(** What holds of the watcher at every moment.  [pending] is the promise
    created last; the promises up to [done] are fulfilled, the later ones
    are not and each carries the callback chained on it, if any; callback
    [done + 1], if chained, is either in the job queue or the one active
    handler, and nothing else is ready or active; and the handlers
    [1 .. done] ran one after the other, each to its end. *)
Record chain_ok (s : Watcher) (done : nat) : Prop := {
  ok_pending : pending s = issued s;
  ok_done : done <= issued s;
  ok_fulfilled : forall k, k <= done -> promises s !! k = Some Fulfilled;
  ok_unsettled :
    forall k, done < k <= issued s ->
      promises s !! k
      = Some (Unsettled (if bool_decide (k < issued s) then [S k] else []));
  ok_stage :
    (jobs s = [] /\ active s = [] /\ done = issued s)
    \/ (jobs s = [S done] /\ active s = [] /\ done < issued s)
    \/ (jobs s = [] /\ (exists p, active s = [(S done, p)]) /\ done < issued s);
  ok_runs : runs (marks s) = (in_sequence done ++ started_only s)%list;
  ok_tickets : enqueued_tickets (marks s) = seq 1 (issued s);
  ok_last : lastBranch s = default None (last_enqueued (marks s))
}.

(** A key of the shared blob as the extension reads it:
    [config.get("colorCustomizations") ?? {}], then the key. *)
Definition blob_lookup (w : World) (key : string) : option jsvalue :=
  default (∅ : blob) (colorCustomizations w) !! key.

(** An operation that only reports a warning: one host call, the
    warning, and neither the store nor the shared blob is written. *)
Definition warns_and_takes_no_action (p : prog unit) (w : World) : Prop :=
  (exists msg, events (exec p w) = EvWarning msg :: events w)
  /\ globalState (exec p w) = globalState w
  /\ colorCustomizations (exec p w) = colorCustomizations w.

(** The handler treats a repository as it treats one without a branch. *)
Definition treated_as_detached `{Host} (r : Repository) : Prop :=
  handleBranchChange r
  = handleBranchChange {| rootUri := rootUri r; HEAD := None |}.

(** ** A host for evaluating examples

    The statements below hold for every host; this one fixes the path
    separator of POSIX and a coarse power function. *)
#[local] Instance sample_host : Host :=
  {| Math_pow := fun x _ => (x * x * sqrt x)%float; path_sep := "/" |}.

(** A repository on a feature branch, on [main], and with a detached
    [HEAD]. *)
Definition feature_repo : Repository :=
  {| rootUri := "/a"; HEAD := Some {| name := Some "feat/login" |} |}.

Definition main_repo : Repository :=
  {| rootUri := "/a"; HEAD := Some {| name := Some "main" |} |}.

Definition detached_repo : Repository :=
  {| rootUri := "/a"; HEAD := None |}.

(** A workspace whose shared blob holds a key of another owner. *)
Definition sample_world : World :=
  {| repositories := [feature_repo];
     activeDocument := None;
     defaultBranches := None;
     colorCustomizations := Some {[ "foo.bar" := JNumber 1 ]};
     globalState := ∅;
     random := fun _ => 0.5%float;
     drawn := 0;
     events := [] |}.

(** No repository open, and a blob that holds a managed key. *)
Definition no_repository_world : World :=
  {| repositories := [];
     activeDocument := Some "/a/file.txt";
     defaultBranches := None;
     colorCustomizations :=
       Some {[ "titleBar.activeBackground" := JString "#c32222" ]};
     globalState := ∅;
     random := fun _ => 0.5%float;
     drawn := 0;
     events := [] |}.

(** The workspace as an earlier session on a feature branch left it: the
    managed keys are in the shared blob. *)
Definition stale_world : World :=
  {| repositories := [detached_repo];
     activeDocument := None;
     defaultBranches := None;
     colorCustomizations :=
       Some {[ "titleBar.activeBackground" := JString "#c32222";
               "statusBar.background" := JString "#c32222" ]};
     globalState := {[ "colors:/a:feat/login" := "#c32222" ]};
     random := fun _ => 0.5%float;
     drawn := 0;
     events := [] |}.

(** A branch whose name is the empty string. *)
Definition empty_name_repo : Repository :=
  {| rootUri := "/a"; HEAD := Some {| name := Some EmptyString |} |}.

(** ** Notions for the properties of the remaining code *)

(** The test [isMatch] of [resolveRepository] on one repository. *)
Definition isMatch `{Host} (fsPath : string) (r : Repository) : bool :=
  String.eqb fsPath (rootUri r)
  || String.prefix (rootUri r ++ path_sep) fsPath.

(** [root.length] of a repository. *)
Definition root_length (r : Repository) : nat := String.length (rootUri r).

(** A branch name free of the colon, as git requires of every reference
    name. *)
Definition colon_free (s : string) : Prop :=
  ~ In ":"%char (list_ascii_of_string s).

(** A colour as [hslToHex] writes it: [#] and six lower-case hexadecimal
    digits. *)
Definition is_hex_lower (c : ascii) : bool :=
  let n := nat_of_ascii c in
  (Nat.leb 48 n && Nat.leb n 57) || (Nat.leb 97 n && Nat.leb n 102).

Definition well_formed (hex : string) : bool :=
  match hex with
  | String "#" digits =>
      Nat.eqb (String.length digits) 6
      && forallb is_hex_lower (list_ascii_of_string digits)
  | _ => false
  end.

(** The six managed entries [applyColor] writes for a colour. *)
Definition palette `{Host} (color : string) : blob :=
  let fg := contrastForeground color in
  let inactiveBg := darken color 0.3%float in
  let inactiveFg := contrastForeground inactiveBg in
  <["statusBar.foreground" := JString fg]>
  (<["statusBar.background" := JString color]>
  (<["titleBar.inactiveForeground" := JString inactiveFg]>
  (<["titleBar.inactiveBackground" := JString inactiveBg]>
  (<["titleBar.activeForeground" := JString fg]>
  (<["titleBar.activeBackground" := JString color]> ∅))))).

(** The colour [generateRandomColor] returns in a world: it reads the next
    three values of [Math.random]. *)
Definition next_color (w : World) : string :=
  fst (run generateRandomColor w).

(** A workspace with two nested repositories and an active document in
    the inner one. *)
Definition outer_repo : Repository :=
  {| rootUri := "/a"; HEAD := Some {| name := Some "main" |} |}.

Definition inner_repo : Repository :=
  {| rootUri := "/a/sub"; HEAD := Some {| name := Some "feat/login" |} |}.

Definition nested_world : World :=
  {| repositories := [outer_repo; inner_repo];
     activeDocument := Some "/a/sub/file.txt";
     defaultBranches := None;
     colorCustomizations := None;
     globalState := {[ "colors:/a/sub:feat/login" := "#c32222" ]};
     random := fun _ => 0.5%float;
     drawn := 0;
     events := [] |}.

(** The loop of [resolveRepository], one repository at a time, and what
    it keeps: [best] is the first of the longest matching roots seen. *)
Definition resolve_step `{Host} (fsPath : string)
    (acc : option Repository * Z) (repo : Repository) : option Repository * Z :=
  let '(best, bestLen) := acc in
  if isMatch fsPath repo && (bestLen <? Z.of_nat (root_length repo))%Z
  then (Some repo, Z.of_nat (root_length repo))
  else acc.

Definition first_longest_match `{Host} (fsPath : string)
    (seen : list Repository) (i : nat) (b : Repository) : Prop :=
  seen !! i = Some b
  /\ isMatch fsPath b = true
  /\ forall j r, seen !! j = Some r -> isMatch fsPath r = true ->
       root_length r <= root_length b
       /\ (j < i -> root_length r < root_length b).

Definition resolve_inv `{Host} (fsPath : string)
    (seen : list Repository) (acc : option Repository * Z) : Prop :=
  match fst acc with
  | None =>
      snd acc = (-1)%Z /\ forall r, r ∈ seen -> isMatch fsPath r = false
  | Some b =>
      snd acc = Z.of_nat (root_length b)
      /\ exists i, first_longest_match fsPath seen i b
  end.

(** The sixteen digits [toString(16)] writes. *)
Definition lower_digits : list ascii :=
  list_ascii_of_string "0123456789abcdef".

(** A channel as [darken] reads it from its two digits, and as it writes
    it back after darkening. *)
Definition channel_of (c1 c2 : ascii) : float :=
  JS.to_float (JS.parseInt16 (String c1 (String c2 EmptyString))).

Definition darken_channel (amount : float) (c1 c2 : ascii) : string :=
  JS.padStart2
    (JS.toString16 (JS.Math_round (channel_of c1 c2 * (1 - amount))%float)).

(** The check of one darkened channel: two lower-case digits again, of a
    value not above the channel's. *)
Definition darkened_ok (amount : float) (c1 c2 : ascii) : bool :=
  match darken_channel amount c1 c2 with
  | String x (String y EmptyString) =>
      is_hex_lower x && is_hex_lower y
      && (channel_of x y <=? channel_of c1 c2)%float
  | _ => false
  end.

(** The check of one channel written back unchanged. *)
Definition unchanged_ok (c1 c2 : ascii) : bool :=
  String.eqb (darken_channel 0 c1 c2) (String c1 (String c2 EmptyString)).

(** [hslToHex] channel by channel.  [shade h n] is the factor
    [Math.max(Math.min(k - 3, 9 - k, 1), -1)] of the channel [f(n)] at hue
    [h], and [channel_hex t s l] the two digits of a channel with that
    factor. *)
Definition shade (h n : float) : float :=
  let k := JS.rem (n + h / 30) 12 in
  JS.Math_max [JS.Math_min [k - 3; 9 - k; 1]; -1]%float.

Definition channel_hex (t s l : float) : string :=
  let s := (s / 100)%float in
  let l := (l / 100)%float in
  let a := (s * JS.Math_min [l; 1 - l])%float in
  hex2 (255 * (l - a * t))%float.

(** A channel written as two lower-case digits. *)
Definition two_digits (s : string) : bool :=
  match s with
  | String x (String y EmptyString) => is_hex_lower x && is_hex_lower y
  | _ => false
  end.

(** An integer as a Number. *)
Definition number (n : nat) : float := JS.float_of_Z (Z.of_nat n).

(** The factors of the three channels over the integer hues of
    [0, 360), each listed once. *)
Definition add_shade (x : float) (xs : list float) : list float :=
  if existsb (Leibniz.eqb x) xs then xs else x :: xs.

Definition band_shades : list float :=
  Eval vm_compute in
    fold_right add_shade []
      (flat_map (fun h => [shade (number h) 0; shade (number h) 8;
                           shade (number h) 4]%float)
         (seq 0 360)).

(** The world after [generateRandomColor]: three values of [Math.random]
    are consumed. *)
Definition after_draws (w : World) : World := draw (draw (draw w)).

(** The world after [applyColor]: the palette laid over the blob and
    written back. *)
Definition applied `{Host} (color : string) (w : World) : World :=
  let updated := palette color ∪ default ∅ (colorCustomizations w) in
  log (EvConfigUpdate (Some updated))
      (set_colorCustomizations (Some updated) w).

(** The world after [globalState.update(key, value)]. *)
Definition stored_at (key : string) (value : option string) (w : World) : World :=
  log (EvGlobalStateUpdate key value)
      (set_globalState
         match value with
         | Some c => <[key:=c]> (globalState w)
         | None => delete key (globalState w)
         end w).

(** A branch name the handler colours: not falsy, not a default branch. *)
Definition coloured_branch (r : Repository) (b : string) (w : World) : Prop :=
  HEAD_name r = Some b
  /\ b <> EmptyString
  /\ includes (default ["main"; "master"] (defaultBranches w)) b = false.

(** * Properties *)

(** ** Rounding *)

(** [round_half_up m k] is the integer [n] with [n - 1/2 <= m / 2^k < n + 1/2]. *)
Lemma round_half_up_nearest (m k : Z) :
  (0 <= k)%Z ->
  ((2 * JS.round_half_up m k - 1) * 2 ^ k <= 2 * m
   < (2 * JS.round_half_up m k + 1) * 2 ^ k)%Z.
Proof.
  intros Hk. unfold JS.round_half_up.
  rewrite Z.shiftr_div_pow2, Z.shiftl_mul_pow2 by lia.
  rewrite Z.pow_add_r, Z.pow_1_r by lia.
  assert (0 < 2 ^ k)%Z as Hpos by (apply Z.pow_pos_nonneg; lia).
  set (P := (2 ^ k)%Z) in *.
  pose proof (Z.div_mod (2 * m + 1 * P) (P * 2) ltac:(lia)) as Hdm.
  pose proof (Z.mod_pos_bound (2 * m + 1 * P) (P * 2) ltac:(lia)) as Hb.
  set (n := ((2 * m + 1 * P) / (P * 2))%Z) in *.
  nia.
Qed.

(** [floor_shift m k] is the integer [n] with [n <= m / 2^k < n + 1]. *)
Lemma floor_shift_floor (m k : Z) :
  (0 <= k)%Z ->
  (JS.floor_shift m k * 2 ^ k <= m < (JS.floor_shift m k + 1) * 2 ^ k)%Z.
Proof.
  intros Hk. unfold JS.floor_shift. rewrite Z.shiftr_div_pow2 by lia.
  assert (0 < 2 ^ k)%Z as Hpos by (apply Z.pow_pos_nonneg; lia).
  pose proof (Z.div_mod m (2 ^ k) ltac:(lia)) as Hdm.
  pose proof (Z.mod_pos_bound m (2 ^ k) Hpos) as Hb.
  nia.
Qed.

(** ** Colour utilities *)

Section ColorFacts.
Context `{Host}.

(** C7. [hslToHex] is a function of its three arguments, and at hue 0,
    saturation 70, lightness 45 it returns exactly [#c32222]: the channels
    come in the order red, green, blue, and each is rounded to the nearest
    integer (195, 34 and 34). *)
Theorem hslToHex_0_70_45 :
  hslToHex 0 70 45 = "#c32222"
  /\ channel (hslToHex 0 70 45) 1 3 = 195%float
  /\ channel (hslToHex 0 70 45) 3 5 = 34%float
  /\ channel (hslToHex 0 70 45) 5 7 = 34%float.
Proof. vm_compute. repeat split. Qed.

(** C8. [darken] of [#c32222] by 0.3 is exactly [#891818]: the red channel
    195 times [1 - 0.3] is 136.5 in binary64, which [Math.round] takes to
    137, that is 89 in radix 16; 34 becomes 24, that is 18. *)
Theorem darken_c32222 :
  darken "#c32222" 0.3 = "#891818"
  /\ (channel "#c32222" 1 3 * (1 - 0.3))%float = 136.5%float
  /\ JS.Math_round 136.5 = JS.IInt 137
  /\ JS.toString16 (JS.IInt 137) = "89"
  /\ JS.Math_round (channel "#c32222" 3 5 * (1 - 0.3)) = JS.IInt 24.
Proof. vm_compute. repeat split. Qed.


(** Pure black has luminance 0 on every host: its ink is white. *)
Example contrastForeground_of_black : contrastForeground "#000000" = "#ffffff".
Proof. vm_compute. reflexivity. Qed.

End ColorFacts.

(** ** Running programs *)

Lemma run_bind {A B} (p : prog A) (f : A -> prog B) (w : World) :
  run (bind p f) w = run (f (fst (run p w))) (snd (run p w)).
Proof.
  revert w. induction p as [a | X e k IH]; intros w; cbn.
  - reflexivity.
  - destruct (handle e w) as [x w']. apply IH.
Qed.

Lemma exec_bind {A B} (p : prog A) (f : A -> prog B) (w : World) :
  exec (bind p f) w = exec (f (fst (run p w))) (exec p w).
Proof. unfold exec. now rewrite run_bind. Qed.

(** ** The configuration merge *)

Lemma includes_elem_of (xs : list string) (x : string) :
  includes xs x = true <-> x ∈ xs.
Proof.
  unfold includes. rewrite existsb_exists. split.
  - intros (y & Hin & Heq). apply String.eqb_eq in Heq. subst y.
    now apply list_elem_of_In.
  - intros Hin. exists x. split; [now apply list_elem_of_In | apply String.eqb_refl].
Qed.

(** The loop of [clearColor], entry by entry: over entries with distinct
    keys, a key ends up with its entry unless it is managed. *)
Lemma clean_loop_lookup (entries : list (string * jsvalue)) (acc : blob) (k : string) :
  NoDup entries.*1 ->
  fold_left
    (fun (cleaned : blob) '(key, value) =>
       if negb (includes MANAGED_KEYS key) then <[key:=value]> cleaned
       else cleaned) entries acc !! k
  = match (list_to_map entries : blob) !! k with
    | Some v => if includes MANAGED_KEYS k then acc !! k else Some v
    | None => acc !! k
    end.
Proof.
  revert acc. induction entries as [| [k0 v0] entries IH]; intros acc Hnd.
  - reflexivity.
  - apply NoDup_cons in Hnd as [Hfresh Hnd]. cbn [fold_left].
    rewrite IH by exact Hnd. cbn [list_to_map foldr uncurry].
    destruct (decide (k0 = k)) as [-> | Hne].
    + rewrite lookup_insert_eq.
      rewrite (not_elem_of_list_to_map_1 _ _ Hfresh).
      destruct (includes MANAGED_KEYS k); cbn; [reflexivity |].
      apply lookup_insert_eq.
    + rewrite (lookup_insert_ne _ _ _ _ Hne).
      assert ((if negb (includes MANAGED_KEYS k0) then <[k0:=v0]> acc else acc) !! k
              = acc !! k) as ->.
      { destruct (negb _); [now apply lookup_insert_ne | reflexivity]. }
      reflexivity.
Qed.

Lemma cleaned_of_lookup (existing : blob) (k : string) :
  cleaned_of existing !! k
  = if includes MANAGED_KEYS k then None else existing !! k.
Proof.
  unfold cleaned_of. rewrite clean_loop_lookup by apply NoDup_fst_map_to_list.
  rewrite list_to_map_to_list, lookup_empty.
  destruct (existing !! k), (includes MANAGED_KEYS k); reflexivity.
Qed.

Lemma exec_clearColor (w : World) :
  exec clearColor w
  = let cleaned := cleaned_of (default ∅ (colorCustomizations w)) in
    let target := if (0 <? size cleaned)%nat then Some cleaned else None in
    log (EvConfigUpdate target) (set_colorCustomizations target w).
Proof. reflexivity. Qed.

Lemma blob_lookup_clearColor (w : World) (k : string) :
  blob_lookup (exec clearColor w) k
  = if includes MANAGED_KEYS k then None else blob_lookup w k.
Proof.
  rewrite exec_clearColor. unfold blob_lookup, log, set_colorCustomizations.
  cbn [colorCustomizations].
  set (cleaned := cleaned_of (default ∅ (colorCustomizations w))).
  destruct (0 <? size cleaned)%nat eqn:Hsz; cbn [from_option].
  - apply cleaned_of_lookup.
  - apply Nat.ltb_ge in Hsz.
    assert (cleaned = ∅) as Hempty by (apply map_size_empty_iff; lia).
    rewrite <- cleaned_of_lookup. fold cleaned. rewrite Hempty. reflexivity.
Qed.

(** C4. [clearColor] removes the six managed keys and no other key from
    the shared blob, and writes the outcome back; when no key is left it
    writes the unset marker, never an empty mapping. *)
Theorem clearColor_removes_managed_keys (w : World) :
  let w' := exec clearColor w in
  length MANAGED_KEYS = 6
  /\ NoDup MANAGED_KEYS
  /\ (forall k, blob_lookup w' k
                = if includes MANAGED_KEYS k then None else blob_lookup w k)
  /\ ((forall k, includes MANAGED_KEYS k = false -> blob_lookup w k = None)
      -> colorCustomizations w' = None)
  /\ colorCustomizations w' <> Some ∅
  /\ events w' = EvConfigUpdate (colorCustomizations w') :: events w
  /\ globalState w' = globalState w.
Proof.
  cbv zeta. split; [reflexivity |].
  split; [apply (bool_decide_unpack (NoDup MANAGED_KEYS)); vm_compute; exact I |].
  split; [apply blob_lookup_clearColor |].
  rewrite exec_clearColor. unfold log, set_colorCustomizations, blob_lookup.
  cbn [colorCustomizations events globalState].
  set (cleaned := cleaned_of (default ∅ (colorCustomizations w))).
  destruct (0 <? size cleaned)%nat eqn:Hsz; cbn [from_option].
  - apply Nat.ltb_lt in Hsz.
    assert (cleaned <> ∅) as Hne.
    { intros Heq. rewrite Heq, map_size_empty in Hsz. lia. }
    repeat split.
    + intros Hall. exfalso. apply Hne. apply map_eq. intros k.
      subst cleaned. rewrite cleaned_of_lookup, lookup_empty.
      destruct (includes MANAGED_KEYS k) eqn:Hin; [reflexivity |].
      now apply Hall.
    + congruence.
  - repeat split. discriminate.
Qed.

(** ** Applying a palette *)

Section Apply.
Context `{Host}.

Lemma exec_applyColor (color : string) (w : World) :
  exec (applyColor color) w
  = let fg := contrastForeground color in
    let inactiveBg := darken color 0.3 in
    let inactiveFg := contrastForeground inactiveBg in
    let updated : blob :=
      <["statusBar.foreground" := JString fg]>
      (<["statusBar.background" := JString color]>
      (<["titleBar.inactiveForeground" := JString inactiveFg]>
      (<["titleBar.inactiveBackground" := JString inactiveBg]>
      (<["titleBar.activeForeground" := JString fg]>
      (<["titleBar.activeBackground" := JString color]>
         (default ∅ (colorCustomizations w))))))) in
    log (EvConfigUpdate (Some updated))
        (set_colorCustomizations (Some updated) w).
Proof. reflexivity. Qed.

(** C5. Whatever the shared blob held, [applyColor] leaves a blob in which
    the six managed keys carry the palette of the colour and every other
    key carries what it carried before; a key [foo.bar] keeps its value. *)
Theorem applyColor_merge (color : string) (w : World) :
  let w' := exec (applyColor color) w in
  let fg := contrastForeground color in
  let inactiveBg := darken color 0.3 in
  let inactiveFg := contrastForeground inactiveBg in
  blob_lookup w' "titleBar.activeBackground" = Some (JString color)
  /\ blob_lookup w' "titleBar.activeForeground" = Some (JString fg)
  /\ blob_lookup w' "titleBar.inactiveBackground" = Some (JString inactiveBg)
  /\ blob_lookup w' "titleBar.inactiveForeground" = Some (JString inactiveFg)
  /\ blob_lookup w' "statusBar.background" = Some (JString color)
  /\ blob_lookup w' "statusBar.foreground" = Some (JString fg)
  /\ (forall k, includes MANAGED_KEYS k = false ->
                blob_lookup w' k = blob_lookup w k)
  /\ blob_lookup w' "foo.bar" = blob_lookup w "foo.bar"
  /\ events w' = EvConfigUpdate (colorCustomizations w') :: events w.
Proof.
  cbv zeta. rewrite exec_applyColor.
  unfold blob_lookup, log, set_colorCustomizations.
  cbn [colorCustomizations events from_option id].
  assert (forall k, includes MANAGED_KEYS k = false ->
            forall (v1 v2 v3 v4 v5 v6 : jsvalue) (m : blob),
              (<["statusBar.foreground" := v6]>
               (<["statusBar.background" := v5]>
               (<["titleBar.inactiveForeground" := v4]>
               (<["titleBar.inactiveBackground" := v3]>
               (<["titleBar.activeForeground" := v2]>
               (<["titleBar.activeBackground" := v1]> m)))))) !! k = m !! k)
    as Hframe.
  { intros k Hk v1 v2 v3 v4 v5 v6 m.
    assert (k ∉ MANAGED_KEYS) as Hnot.
    { intros Hin. apply includes_elem_of in Hin. congruence. }
    unfold MANAGED_KEYS in Hnot.
    rewrite !lookup_insert_ne; [reflexivity | ..];
      intros <-; apply Hnot; set_solver. }
  repeat split.
  - now rewrite !lookup_insert_ne, lookup_insert_eq by discriminate.
  - now rewrite !lookup_insert_ne, lookup_insert_eq by discriminate.
  - now rewrite !lookup_insert_ne, lookup_insert_eq by discriminate.
  - now rewrite !lookup_insert_ne, lookup_insert_eq by discriminate.
  - now rewrite !lookup_insert_ne, lookup_insert_eq by discriminate.
  - now rewrite lookup_insert_eq.
  - intros k Hk. now apply Hframe.
  - now apply Hframe.
Qed.

End Apply.

(** ** The branch-change handler *)

Section Handler.
Context `{Host}.

Lemma run_isDefaultBranch (b : string) (w : World) :
  run (isDefaultBranch b) w
  = (includes (default ["main"; "master"] (defaultBranches w)) b, w).
Proof. reflexivity. Qed.

(** The handler on a falsy branch name is [clearColor]. *)
Lemma handleBranchChange_falsy (r : Repository) :
  falsy (HEAD_name r) = true -> handleBranchChange r = clearColor.
Proof. unfold handleBranchChange. now intros ->. Qed.

Lemma exec_handleBranchChange_default (r : Repository) (b : string) (w : World) :
  HEAD_name r = Some b ->
  includes (default ["main"; "master"] (defaultBranches w)) b = true ->
  exec (handleBranchChange r) w = exec clearColor w.
Proof.
  intros Hhead Hdef. unfold handleBranchChange. rewrite Hhead.
  destruct (falsy (Some b)); [reflexivity |].
  cbn [default from_option id].
  unfold mbind, prog_bind. rewrite exec_bind, run_isDefaultBranch.
  cbn [fst]. rewrite Hdef. reflexivity.
Qed.

(** C1. On a branch of the configured default set ([main] and [master]
    when the setting is unset) the handler makes one host call, the
    write-back of the cleaned blob: it neither reads nor writes the store,
    and the managed keys are absent from the blob afterwards, whatever an
    earlier branch had written. *)
Theorem default_branch_exempt (r : Repository) (b : string) (w : World) :
  HEAD_name r = Some b ->
  b ∈ default ["main"; "master"] (defaultBranches w) ->
  let w' := exec (handleBranchChange r) w in
  globalState w' = globalState w
  /\ events w' = EvConfigUpdate (colorCustomizations w') :: events w
  /\ (forall k, k ∈ MANAGED_KEYS -> blob_lookup w' k = None)
  /\ (forall k, k ∉ MANAGED_KEYS -> blob_lookup w' k = blob_lookup w k).
Proof.
  intros Hhead Hdef. cbv zeta.
  apply includes_elem_of in Hdef.
  rewrite (exec_handleBranchChange_default r b w Hhead Hdef).
  repeat split.
  - intros k Hk. rewrite blob_lookup_clearColor.
    apply includes_elem_of in Hk. now rewrite Hk.
  - intros k Hk. rewrite blob_lookup_clearColor.
    destruct (includes MANAGED_KEYS k) eqn:Hin; [| reflexivity].
    apply includes_elem_of in Hin. contradiction.
Qed.

End Handler.

Section HandlerNames.
Context `{Host}.

(** C9, as the code has it.  The absent state is an absent name, which as
    a value differs from every string; the handler however tests the name
    for truthiness, so it treats the empty name exactly as the absent
    state: it only clears the managed keys. *)
Theorem handler_empty_name_as_detached (r : Repository) :
  (None : option string) <> Some EmptyString
  /\ (falsy (HEAD_name r) = true
      <-> HEAD_name r = None \/ HEAD_name r = Some EmptyString)
  /\ (falsy (HEAD_name r) = true -> handleBranchChange r = clearColor)
  /\ (falsy (HEAD_name r) = true -> treated_as_detached r).
Proof.
  split; [discriminate |].
  split.
  { unfold falsy. destruct (HEAD_name r) as [s |].
    - rewrite String.eqb_eq. split.
      + intros ->. now right.
      + intros [Habs | Heq]; [discriminate | congruence].
    - split; [now left | reflexivity]. }
  split; [apply handleBranchChange_falsy |].
  intros Hf. unfold treated_as_detached.
  now rewrite (handleBranchChange_falsy r Hf).
Qed.

End HandlerNames.

(** C9, as stated, fails: the handler treats a branch named by the empty
    string as the detached state. *)
Lemma empty_name_is_treated_as_detached :
  HEAD_name empty_name_repo = Some EmptyString
  /\ treated_as_detached empty_name_repo
  /\ exec (handleBranchChange empty_name_repo) sample_world
     = exec clearColor sample_world.
Proof. repeat split. Qed.

(** ** The commands without a repository *)

Section Commands.
Context `{Host}.

Lemma run_resolveRepository_None (w : World) :
  fst (run resolveRepository w) = None <-> repositories w = [].
Proof.
  cbn. split.
  - destruct (repositories w) as [| r rs]; [reflexivity |].
    destruct (activeDocument w) as [fsPath |]; [| discriminate].
    destruct (fold_left _ _ _) as [[best |] bestLen]; discriminate.
  - intros ->. destruct (activeDocument w); reflexivity.
Qed.

Lemma run_resolveRepository_world (w : World) :
  snd (run resolveRepository w) = w.
Proof. reflexivity. Qed.

(** C3, as the code has it.  With no repository resolved, Reroll reports a
    warning and does nothing else; Clear leaves the store alone but still
    removes the managed keys from the shared blob, and reports the
    clearing as information. *)
Theorem commands_without_repository (w : World) :
  fst (run resolveRepository w) = None ->
  warns_and_takes_no_action reroll w
  /\ globalState (exec clear w) = globalState w
  /\ events (exec clear w)
     = EvInformation "Worktree Rainbow: Color cleared."
       :: EvConfigUpdate (colorCustomizations (exec clear w))
       :: events w
  /\ (forall k, blob_lookup (exec clear w) k
                = if includes MANAGED_KEYS k then None else blob_lookup w k).
Proof.
  intros Hnone.
  assert (run resolveRepository w = (None, w)) as Hrun.
  { rewrite <- Hnone at 1. rewrite <- (run_resolveRepository_world w) at 3.
    now destruct (run resolveRepository w). }
  assert (exec reroll w
          = log (EvWarning "Worktree Rainbow: No git repository found.") w)
    as Hreroll.
  { unfold reroll, mbind, prog_bind. rewrite exec_bind, Hrun. reflexivity. }
  assert (exec clear w
          = log (EvInformation "Worktree Rainbow: Color cleared.")
              (exec clearColor w)) as Hclear.
  { unfold clear, mbind, prog_bind. rewrite !exec_bind, Hrun. reflexivity. }
  split.
  { unfold warns_and_takes_no_action. rewrite Hreroll. repeat split. now eexists. }
  rewrite Hclear. repeat split.
  intros k. apply blob_lookup_clearColor.
Qed.

End Commands.

(** C3, as stated, fails for Clear: with no repository open it reports no
    warning and writes the shared blob. *)
Lemma clear_without_repository_acts :
  fst (run resolveRepository no_repository_world) = None
  /\ ~ warns_and_takes_no_action clear no_repository_world
  /\ events (exec clear no_repository_world)
     = [EvInformation "Worktree Rainbow: Color cleared."; EvConfigUpdate None]
  /\ colorCustomizations (exec clear no_repository_world) = None.
Proof.
  split; [reflexivity |]. split.
  - intros ([msg Hev] & _). vm_compute in Hev. discriminate.
  - split; vm_compute; reflexivity.
Qed.

(** ** The watcher *)

Local Open Scope list_scope.

Lemma runs_cons (m : Mark) (ms : list Mark) :
  runs (m :: ms)
  = runs ms ++ match m with Enqueued _ _ => [] | _ => [m] end.
Proof. unfold runs. destruct m; cbn; now rewrite ?app_nil_r. Qed.

Lemma enqueued_tickets_cons (m : Mark) (ms : list Mark) :
  enqueued_tickets (m :: ms)
  = enqueued_tickets ms ++ match m with Enqueued t _ => [t] | _ => [] end.
Proof. unfold enqueued_tickets. destruct m; cbn; now rewrite ?app_nil_r. Qed.

Lemma in_sequence_S (n : nat) :
  in_sequence (S n) = in_sequence n ++ [Started (S n); Finished (S n)].
Proof.
  unfold in_sequence. rewrite seq_S, flat_map_app. cbn. reflexivity.
Qed.

Section WatcherFacts.
Context `{Host}.

Lemma enqueue_same (s : Watcher) :
  HEAD_name (repo s) = lastBranch s -> enqueue s = s.
Proof. intros Heq. unfold enqueue. now rewrite bool_decide_eq_true_2. Qed.


Lemma chain_ok_init (r : Repository) (w : World) :
  chain_ok {| host := w; repo := r; lastBranch := None;
              pending := 0; promises := {[ 0 := Fulfilled ]}; issued := 0;
              jobs := []; active := []; marks := [] |} 0.
Proof.
  constructor; cbn; try reflexivity.
  - intros k Hk. assert (k = 0) as -> by lia. apply lookup_singleton_eq.
  - intros k Hk. lia.
  - left. repeat split.
Qed.

Lemma chain_ok_enqueue (s : Watcher) (done : nat) :
  chain_ok s done -> chain_ok (enqueue s) done.
Proof.
  intros [Hpend Hdone Hful Huns Hstage Hruns Htick Hlast].
  destruct (decide (HEAD_name (repo s) = lastBranch s)) as [Heq | Hne].
  { rewrite enqueue_same by exact Heq. now constructor. }
  unfold enqueue. rewrite bool_decide_eq_false_2 by exact Hne.
  rewrite Hpend.
  destruct (decide (done = issued s)) as [Hd | Hd].
  - (* every promise is fulfilled: the callback is ready at once *)
    rewrite (Hful (issued s)) by lia.
    destruct Hstage as [(Hj & Ha & _) | [(_ & _ & Hlt) | (_ & _ & Hlt)]];
      [| lia | lia].
    constructor; cbn [pending issued promises jobs active marks lastBranch].
    + reflexivity.
    + lia.
    + intros k Hk. rewrite lookup_insert_ne by lia. apply Hful, Hk.
    + intros k Hk. assert (k = S (issued s)) as -> by lia.
      rewrite lookup_insert_eq, bool_decide_eq_false_2 by lia. reflexivity.
    + right. left. rewrite Hj, Hd. repeat split; [exact Ha | lia].
    + rewrite runs_cons, app_nil_r. exact Hruns.
    + rewrite enqueued_tickets_cons, Htick, seq_S. reflexivity.
    + reflexivity.
  - (* the last promise is not settled: the callback waits on it *)
    rewrite (Huns (issued s)) by lia.
    rewrite bool_decide_eq_false_2 by lia. cbn [app].
    constructor; cbn [pending issued promises jobs active marks lastBranch].
    + reflexivity.
    + lia.
    + intros k Hk. rewrite !lookup_insert_ne by lia. apply Hful, Hk.
    + intros k Hk.
      destruct (decide (k = S (issued s))) as [-> | Hk1].
      { rewrite lookup_insert_eq, bool_decide_eq_false_2 by lia. reflexivity. }
      rewrite lookup_insert_ne by lia.
      destruct (decide (k = issued s)) as [-> | Hk2].
      { rewrite lookup_insert_eq, bool_decide_eq_true_2 by lia. reflexivity. }
      rewrite lookup_insert_ne by lia.
      rewrite Huns by lia.
      rewrite !bool_decide_eq_true_2 by lia. reflexivity.
    + destruct Hstage as [(_ & _ & Heq) | [(Hj & Ha & _) | (Hj & Ha & _)]];
        [lia | |].
      * right. left. repeat split; [exact Hj | exact Ha | lia].
      * right. right. repeat split; [exact Hj | exact Ha | lia].
    + rewrite runs_cons, app_nil_r. exact Hruns.
    + rewrite enqueued_tickets_cons, Htick, seq_S. reflexivity.
    + reflexivity.
Qed.

(** Calling the ready callback starts its handler, on the repository as
    it is then. *)
Lemma chain_ok_run_job (s : Watcher) (done : nat) :
  chain_ok s done -> jobs s = [S done] ->
  chain_ok (run_job s) done
  /\ active (run_job s) = [(S done, handleBranchChange (repo s))]
  /\ issued (run_job s) = issued s
  /\ host (run_job s) = host s
  /\ repo (run_job s) = repo s.
Proof.
  intros [Hpend Hdone Hful Huns Hstage Hruns Htick Hlast] Hj.
  destruct Hstage as [(Hj' & _) | [(_ & Ha & Hlt) | (Hj' & _)]];
    [congruence | | congruence].
  unfold run_job. rewrite Hj, Ha. cbn [app].
  split; [| repeat split].
  constructor; cbn [pending issued promises jobs active marks lastBranch];
    try assumption.
  - right. right. repeat split; [now eexists | exact Hlt].
  - rewrite runs_cons, Hruns. unfold started_only. rewrite Ha. cbn.
    now rewrite app_nil_r.
Qed.

(** A host call of the active handler leaves the chain as it is. *)
Lemma chain_ok_advance_call (s : Watcher) (done : nat) {X} (e : eff X) k :
  chain_ok s done -> active s = [(S done, Vis e k)] ->
  chain_ok (advance 0 s) done
  /\ active (advance 0 s) = [(S done, k (fst (handle e (host s))))]
  /\ issued (advance 0 s) = issued s
  /\ host (advance 0 s) = snd (handle e (host s))
  /\ repo (advance 0 s) = repo s.
Proof.
  intros [Hpend Hdone Hful Huns Hstage Hruns Htick Hlast] Ha.
  destruct Hstage as [(_ & Ha' & _) | [(_ & Ha' & _) | (Hj & _ & Hlt)]];
    [congruence | congruence |].
  unfold advance. rewrite Ha. cbn [lookup list_lookup].
  destruct (handle e (host s)) as [x w'] eqn:Hh. cbn [fst snd].
  split; [| repeat split].
  constructor; cbn [pending issued promises jobs active marks lastBranch];
    try assumption.
  - right. right. repeat split; [exact Hj | now eexists | exact Hlt].
  - rewrite Hruns. unfold started_only. rewrite Ha. reflexivity.
Qed.

(** The end of the active handler fulfils its promise; the callback
    chained on it, if any, becomes ready. *)
Lemma chain_ok_advance_end (s : Watcher) (done : nat) (u : unit) :
  chain_ok s done -> active s = [(S done, Ret u)] ->
  chain_ok (advance 0 s) (S done)
  /\ issued (advance 0 s) = issued s
  /\ host (advance 0 s) = host s
  /\ repo (advance 0 s) = repo s.
Proof.
  intros [Hpend Hdone Hful Huns Hstage Hruns Htick Hlast] Ha.
  destruct Hstage as [(_ & Ha' & _) | [(_ & Ha' & _) | (Hj & _ & Hlt)]];
    [congruence | congruence |].
  unfold advance. rewrite Ha. cbn [lookup list_lookup].
  rewrite (Huns (S done)) by lia. rewrite Hj. cbn [app delete list_delete].
  split; [| repeat split].
  constructor; cbn [pending issued promises jobs active marks lastBranch];
    try assumption.
  - intros k Hk. destruct (decide (k = S done)) as [-> | Hne].
    + apply lookup_insert_eq.
    + rewrite lookup_insert_ne by lia. apply Hful. lia.
  - intros k Hk. rewrite lookup_insert_ne by lia. apply Huns. lia.
  - destruct (decide (S done < issued s)) as [Hlt' | Hge].
    + rewrite bool_decide_eq_true_2 by exact Hlt'.
      right. left. repeat split. exact Hlt'.
    + rewrite bool_decide_eq_false_2 by exact Hge.
      left. repeat split. lia.
  - rewrite runs_cons, Hruns, in_sequence_S. unfold started_only.
    rewrite Ha. cbn [active map fst].
    rewrite app_nil_r, <- app_assoc. reflexivity.
Qed.


Lemma chain_ok_watchRepo (r : Repository) (w : World) :
  chain_ok (watchRepo r w) 0.
Proof. apply chain_ok_enqueue, chain_ok_init. Qed.


End WatcherFacts.

Section WatcherProgress.
Context `{Host}.


Lemma active_jobs_nil (s : Watcher) (done : nat) (a : nat * prog unit) :
  chain_ok s done -> active s = [a] -> jobs s = [].
Proof.
  intros Hok Ha.
  destruct (ok_stage _ _ Hok) as [(_ & Ha' & _) | [(_ & Ha' & _) | (Hj & _)]];
    [congruence | congruence | exact Hj].
Qed.

(** The active handler reaches its end after finitely many steps of the
    event loop, having made its host calls in order. *)
Lemma finish_active (p : prog unit) (s : Watcher) (done : nat) :
  chain_ok s done -> active s = [(S done, p)] ->
  exists n,
    chain_ok (ticks n s) (S done)
    /\ issued (ticks n s) = issued s
    /\ host (ticks n s) = exec p (host s)
    /\ repo (ticks n s) = repo s.
Proof.
  revert s. induction p as [u | X e k IH]; intros s Hok Ha.
  - exists 1. cbn [ticks]. unfold tick.
    rewrite (active_jobs_nil s done _ Hok Ha).
    destruct (chain_ok_advance_end s done u Hok Ha) as (Hok1 & Hi & Hh & Hr).
    exact (conj Hok1 (conj Hi (conj Hh Hr))).
  - destruct (chain_ok_advance_call s done e k Hok Ha)
      as (Hok1 & Ha1 & Hi1 & Hh1 & Hr1).
    destruct (IH _ (advance 0 s) Hok1 Ha1) as (n & Hokn & Hin & Hhn & Hrn).
    exists (S n). cbn [ticks]. unfold tick at 1 2 3 4.
    rewrite (active_jobs_nil s done _ Hok Ha).
    split; [exact Hokn |]. split; [congruence |]. split; [| congruence].
    rewrite Hhn, Hh1. unfold exec. cbn [run].
    now destruct (handle e (host s)).
Qed.


Lemma ticks_idle (s : Watcher) (n : nat) :
  jobs s = [] -> active s = [] -> ticks n s = s.
Proof.
  intros Hj Ha. induction n as [| n IH]; [reflexivity |].
  cbn [ticks]. unfold tick, advance. rewrite Hj, Ha. exact IH.
Qed.

End WatcherProgress.

Section WatcherClaims.
Context `{Host}.


(** C10, on the code.  Registering a repository chains one callback at
    once when [HEAD] carries a name: it is ready at once, and the handler
    it starts does what the handler does on the current branch.  When
    [HEAD] carries no name nothing is chained, and the event loop left
    alone never touches the host. *)
Theorem watchRepo_first_enqueue (r : Repository) (w : World) :
  host (watchRepo r w) = w
  /\ active (watchRepo r w) = []
  /\ jobs (watchRepo r w)
     = match HEAD_name r with Some _ => [1] | None => [] end
  /\ (HEAD_name r = None ->
      run_job (watchRepo r w) = watchRepo r w
      /\ (forall i, advance i (watchRepo r w) = watchRepo r w)
      /\ (forall n, ticks n (watchRepo r w) = watchRepo r w))
  /\ (HEAD_name r <> None ->
      exists n, host (ticks n (watchRepo r w))
                = exec (handleBranchChange r) w).
Proof.
  pose proof (chain_ok_watchRepo r w) as Hok. revert Hok.
  unfold watchRepo, enqueue.
  cbn [repo lastBranch host pending promises issued jobs active marks].
  destruct (HEAD_name r) as [b |] eqn:Hhead.
  - rewrite bool_decide_eq_false_2 by discriminate.
    rewrite lookup_singleton_eq. cbn [app].
    intros Hok.
    split; [reflexivity |]. split; [reflexivity |]. split; [reflexivity |].
    split; [discriminate |].
    intros _.
    destruct (chain_ok_run_job _ 0 Hok eq_refl) as (Hok1 & Ha1 & _ & Hh1 & _).
    destruct (finish_active _ _ 0 Hok1 Ha1) as (n & _ & _ & Hhn & _).
    exists (S n). cbn [ticks]. unfold tick at 1. cbn [jobs].
    rewrite Hhn, Hh1. reflexivity.
  - rewrite bool_decide_eq_true_2 by reflexivity.
    intros _.
    split; [reflexivity |]. split; [reflexivity |]. split; [reflexivity |].
    split; [| congruence].
    intros _.
    split; [reflexivity |]. split; [reflexivity |].
    intros n. now apply ticks_idle.
Qed.

End WatcherClaims.

(** ** The statements above at concrete inputs *)

(** C1 at work: a feature branch has written the managed keys; the switch
    to [main] removes them and leaves the store alone. *)
Lemma default_branch_exempt_main :
  blob_lookup (exec (handleBranchChange feature_repo) sample_world)
    "titleBar.activeBackground" = Some (JString "#22c3c3")
  /\ let w := exec (handleBranchChange feature_repo) sample_world in
     let w' := exec (handleBranchChange main_repo) w in
     globalState w' = globalState w
     /\ events w' = EvConfigUpdate (colorCustomizations w') :: events w
     /\ (forall k, k ∈ MANAGED_KEYS -> blob_lookup w' k = None)
     /\ (forall k, k ∉ MANAGED_KEYS -> blob_lookup w' k = blob_lookup w k).
Proof.
  split; [vm_compute; reflexivity |].
  apply (default_branch_exempt main_repo "main"
           (exec (handleBranchChange feature_repo) sample_world)).
  - reflexivity.
  - vm_compute. left.
Defined.

(** C5 at work: [foo.bar = 1] is still there beside the palette. *)
Lemma applyColor_keeps_foo_bar :
  blob_lookup sample_world "foo.bar" = Some (JNumber 1)
  /\ blob_lookup (exec (applyColor "#c32222") sample_world) "foo.bar"
     = Some (JNumber 1)
  /\ blob_lookup (exec (applyColor "#c32222") sample_world)
       "titleBar.activeBackground" = Some (JString "#c32222")
  /\ blob_lookup (exec (applyColor "#c32222") sample_world)
       "titleBar.inactiveBackground" = Some (JString "#891818").
Proof.
  destruct (applyColor_merge "#c32222" sample_world)
    as (Hab & _ & Hib & _ & _ & _ & _ & Hfoo & _).
  split; [reflexivity |].
  split; [rewrite Hfoo; reflexivity |].
  split; [exact Hab |].
  rewrite Hib. vm_compute. reflexivity.
Defined.

(** C3 at work, with no repository open. *)
Lemma commands_without_repository_example :
  warns_and_takes_no_action reroll no_repository_world
  /\ globalState (exec clear no_repository_world)
     = globalState no_repository_world
  /\ events (exec clear no_repository_world)
     = EvInformation "Worktree Rainbow: Color cleared."
       :: EvConfigUpdate (colorCustomizations (exec clear no_repository_world))
       :: events no_repository_world
  /\ (forall k, blob_lookup (exec clear no_repository_world) k
                = if includes MANAGED_KEYS k then None
                  else blob_lookup no_repository_world k).
Proof.
  apply (commands_without_repository no_repository_world). reflexivity.
Defined.


(** C10 at work: registered with a detached [HEAD], the watcher chains
    nothing, and the managed keys of an earlier session stay in the blob,
    although the handler, had it run, would have removed them; registered
    on [main], it chains the run that removes them. *)
Lemma watchRepo_detached_keeps_stale_keys :
  HEAD_name detached_repo = None
  /\ jobs (watchRepo detached_repo stale_world) = []
  /\ marks (watchRepo detached_repo stale_world) = []
  /\ (forall n,
        blob_lookup (host (ticks n (watchRepo detached_repo stale_world)))
          "titleBar.activeBackground" = Some (JString "#c32222"))
  /\ blob_lookup (exec (handleBranchChange detached_repo) stale_world)
       "titleBar.activeBackground" = None
  /\ jobs (watchRepo main_repo stale_world) = [1]
  /\ blob_lookup (host (ticks 8 (watchRepo main_repo stale_world)))
       "titleBar.activeBackground" = None.
Proof.
  destruct (watchRepo_first_enqueue detached_repo stale_world)
    as (Hhost & _ & Hjobs & Hidle & _).
  split; [reflexivity |].
  split; [exact Hjobs |].
  split; [reflexivity |].
  split.
  { intros n. destruct (Hidle eq_refl) as (_ & _ & Hticks).
    rewrite (Hticks n), Hhost. reflexivity. }
  vm_compute. repeat split.
Defined.

(** * Further properties of the code *)

(** ** Resolving the repository of the active document *)

Section Resolve.
Context `{Host}.

Lemma resolve_inv_step (fsPath : string) (seen : list Repository)
    (acc : option Repository * Z) (repo : Repository) :
  resolve_inv fsPath seen acc ->
  resolve_inv fsPath (seen ++ [repo]) (resolve_step fsPath acc repo).
Proof.
  destruct acc as [best bestLen]. unfold resolve_inv, resolve_step. cbn [fst snd].
  intros Hinv.
  destruct (isMatch fsPath repo) eqn:Hm; cbn [andb].
  2:{ (* the repository does not match: nothing changes *)
      destruct best as [b |]; cbn [fst snd].
      - destruct Hinv as (Hlen & i & Hi & Hb & Hmax). split; [exact Hlen |].
        exists i. split; [| split; [exact Hb |]].
        + rewrite lookup_app_l; [exact Hi | now apply lookup_lt_Some in Hi].
        + intros j r Hj Hr. apply lookup_app_Some in Hj as [Hj | [_ Hj]].
          * now apply Hmax.
          * apply list_lookup_singleton_Some in Hj as [_ <-]. congruence.
      - destruct Hinv as (Hlen & Hnone). split; [exact Hlen |].
        intros r Hr. apply elem_of_app in Hr as [Hr | Hr]; [now apply Hnone |].
        apply list_elem_of_singleton in Hr. now subst r. }
  destruct (bestLen <? Z.of_nat (root_length repo))%Z eqn:Hlt; cbn [fst snd].
  - (* a longer match: it becomes the best *)
    apply Z.ltb_lt in Hlt. split; [reflexivity |].
    exists (length seen). split; [| split; [exact Hm |]].
    + rewrite lookup_app_r by lia. now rewrite Nat.sub_diag.
    + intros j r Hj Hr. apply lookup_app_Some in Hj as [Hj | [Hge Hj]].
      * pose proof (lookup_lt_Some _ _ _ Hj) as Hjlt.
        destruct best as [b |]; cbn [fst snd] in Hinv.
        -- destruct Hinv as (Hlen & i & _ & _ & Hmax).
           destruct (Hmax j r Hj Hr) as [Hle _]. lia.
        -- destruct Hinv as (_ & Hnone).
           rewrite (Hnone r) in Hr; [discriminate |].
           apply list_elem_of_lookup. now exists j.
      * apply list_lookup_singleton_Some in Hj as [_ <-]. lia.
  - (* a match that is not longer: the earlier best stays *)
    apply Z.ltb_ge in Hlt.
    destruct best as [b |]; cbn [fst snd] in *.
    + destruct Hinv as (Hlen & i & Hi & Hb & Hmax). split; [exact Hlen |].
      exists i. split; [| split; [exact Hb |]].
      * rewrite lookup_app_l; [exact Hi | now apply lookup_lt_Some in Hi].
      * intros j r Hj Hr. apply lookup_app_Some in Hj as [Hj | [Hge Hj]].
        -- now apply Hmax.
        -- apply list_lookup_singleton_Some in Hj as [Hj <-].
           apply lookup_lt_Some in Hi. split; lia.
    + destruct Hinv as (Hlen & _). lia.
Qed.

Lemma resolve_inv_loop (fsPath : string) (repos seen : list Repository)
    (acc : option Repository * Z) :
  resolve_inv fsPath seen acc ->
  resolve_inv fsPath (seen ++ repos) (fold_left (resolve_step fsPath) repos acc).
Proof.
  revert seen acc. induction repos as [| repo repos IH]; intros seen acc Hinv.
  - now rewrite app_nil_r.
  - cbn [fold_left].
    replace (seen ++ repo :: repos) with ((seen ++ [repo]) ++ repos)
      by (now rewrite <- app_assoc).
    apply IH, resolve_inv_step, Hinv.
Qed.

Lemma run_resolveRepository (w : World) :
  run resolveRepository w
  = (match activeDocument w with
     | Some fsPath =>
         match fst (fold_left (resolve_step fsPath) (repositories w)
                      (None, (-1)%Z)) with
         | Some repo => Some repo
         | None => head (repositories w)
         end
     | None => head (repositories w)
     end, w).
Proof.
  cbn. destruct (activeDocument w) as [fsPath |]; [| reflexivity].
  change (fold_left _ (repositories w) (None, (-1)%Z))
    with (fold_left (resolve_step fsPath) (repositories w) (None, (-1)%Z)).
  now destruct (fold_left _ _ _).
Qed.

(** X1. With an active document inside at least one repository,
    [resolveRepository] returns the repository with the longest matching
    root, the first registered among equally long ones, and makes no host
    call that leaves a trace. *)
Theorem resolveRepository_longest_match
    (w : World) (fsPath : string) (r : Repository) :
  activeDocument w = Some fsPath ->
  r ∈ repositories w ->
  isMatch fsPath r = true ->
  snd (run resolveRepository w) = w
  /\ exists best i,
       fst (run resolveRepository w) = Some best
       /\ first_longest_match fsPath (repositories w) i best.
Proof.
  intros Hdoc Hin Hm. rewrite run_resolveRepository, Hdoc. cbn [fst snd].
  split; [reflexivity |].
  pose proof (resolve_inv_loop fsPath (repositories w) [] (None, (-1)%Z)) as Hinv.
  cbn [app] in Hinv. unfold resolve_inv at 2 in Hinv.
  destruct (fst (fold_left _ _ _)) as [best |].
  - destruct Hinv as (_ & i & Hbest).
    { split; [reflexivity |]. intros r' Hr'. now apply elem_of_nil in Hr'. }
    now exists best, i.
  - destruct Hinv as (_ & Hnone).
    { split; [reflexivity |]. intros r' Hr'. now apply elem_of_nil in Hr'. }
    rewrite (Hnone r Hin) in Hm. discriminate.
Qed.

(** X2. Without an active document, or with one that no repository
    contains, [resolveRepository] falls back to the first repository (to
    none when none is open). *)
Theorem resolveRepository_fallback (w : World) :
  (activeDocument w = None
   \/ exists fsPath, activeDocument w = Some fsPath
        /\ forall r, r ∈ repositories w -> isMatch fsPath r = false) ->
  run resolveRepository w = (head (repositories w), w).
Proof.
  intros Hcase. rewrite run_resolveRepository.
  destruct Hcase as [-> | (fsPath & -> & Hnone)]; [reflexivity |].
  pose proof (resolve_inv_loop fsPath (repositories w) [] (None, (-1)%Z)) as Hinv.
  cbn [app] in Hinv. unfold resolve_inv at 2 in Hinv.
  destruct (fst (fold_left _ _ _)) as [best |]; [| reflexivity].
  destruct Hinv as (_ & i & Hi & Hb & _).
  { split; [reflexivity |]. intros r' Hr'. now apply elem_of_nil in Hr'. }
  rewrite Hnone in Hb; [discriminate |].
  apply list_elem_of_lookup. now exists i.
Qed.

End Resolve.

(** X1 at work: of [/a] and [/a/sub], a document in [/a/sub] resolves to
    [/a/sub]. *)
Lemma resolveRepository_nested :
  snd (run resolveRepository nested_world) = nested_world
  /\ exists best i,
       fst (run resolveRepository nested_world) = Some best
       /\ first_longest_match "/a/sub/file.txt"
            (repositories nested_world) i best.
Proof.
  apply (resolveRepository_longest_match nested_world "/a/sub/file.txt" inner_repo).
  - reflexivity.
  - apply list_elem_of_further, list_elem_of_here.
  - reflexivity.
Defined.

(** X2 at work: no active document. *)
Lemma resolveRepository_no_document :
  run resolveRepository sample_world = (head (repositories sample_world), sample_world).
Proof.
  apply (resolveRepository_fallback sample_world). left. reflexivity.
Defined.

(** ** Store keys *)

Lemma colon_in_middle (p b : string) :
  In ":"%char (list_ascii_of_string (p ++ ":" ++ b)%string).
Proof.
  induction p as [| c p IH]; cbn.
  - now left.
  - now right.
Qed.

Lemma split_at_last_colon (p1 p2 b1 b2 : string) :
  colon_free b1 -> colon_free b2 ->
  (p1 ++ ":" ++ b1 = p2 ++ ":" ++ b2)%string ->
  p1 = p2 /\ b1 = b2.
Proof.
  intros Hb1 Hb2. revert p2.
  induction p1 as [| c p1 IH]; intros [| c2 p2] Heq;
    cbv [String.append] in Heq; fold String.append in Heq.
  - injection Heq as Heq. now split.
  - injection Heq as Hc Heq. subst. exfalso. apply Hb1, colon_in_middle.
  - injection Heq as Hc Heq. subst. exfalso. apply Hb2, colon_in_middle.
  - injection Heq as Hc Heq. subst. destruct (IH _ Heq) as [-> ->]. now split.
Qed.

(** X3. Branch names carry no colon (git refuses one in a reference
    name); for such names [colorKey] gives different pairs of repository
    path and branch different keys, even when the path itself has colons:
    two assignments never share an entry of the store. *)
Theorem colorKey_injective (p1 p2 b1 b2 : string) :
  colon_free b1 -> colon_free b2 ->
  (p1, b1) <> (p2, b2) ->
  colorKey p1 b1 <> colorKey p2 b2.
Proof.
  intros Hb1 Hb2 Hne Heq. apply Hne. unfold colorKey in Heq. cbn in Heq.
  injection Heq as Heq.
  destruct (split_at_last_colon p1 p2 b1 b2 Hb1 Hb2 Heq) as [-> ->].
  reflexivity.
Qed.

(** X3 at work on a path with a colon; and why the branch must have
    none: with a colon in the branch name two different pairs meet in one
    key. *)
Lemma colorKey_injective_example :
  colorKey "C:/repo" "feat/login" <> colorKey "C:/repo/feat" "login"
  /\ colorKey "/a" "b:c" = colorKey "/a:b" "c".
Proof.
  split; [| reflexivity].
  apply (colorKey_injective "C:/repo" "C:/repo/feat" "feat/login" "login").
  - unfold colon_free. cbn. intros Hin.
    repeat (destruct Hin as [Hin | Hin]; [discriminate |]). exact Hin.
  - unfold colon_free. cbn. intros Hin.
    repeat (destruct Hin as [Hin | Hin]; [discriminate |]). exact Hin.
  - discriminate.
Defined.

(** ** Colours as strings *)

Lemma is_hex_lower_digit (c : ascii) :
  is_hex_lower c = true -> In c lower_digits.
Proof.
  intros Hc.
  assert (existsb (Ascii.eqb c) lower_digits = true) as Hex.
  { revert Hc. destruct c as [[] [] [] [] [] [] [] []];
      vm_compute; intros Hc; first [reflexivity | discriminate Hc]. }
  apply existsb_exists in Hex as (d & Hd & Heq).
  apply Ascii.eqb_eq in Heq. now subst d.
Qed.

Lemma well_formed_shape (hex : string) :
  well_formed hex = true ->
  exists c1 c2 c3 c4 c5 c6,
    hex = String "#" (String c1 (String c2 (String c3 (String c4
            (String c5 (String c6 EmptyString))))))
    /\ Forall (fun c => is_hex_lower c = true) [c1; c2; c3; c4; c5; c6].
Proof.
  unfold well_formed. destruct hex as [| c0 digits]; [discriminate |].
  destruct (Ascii.eqb_spec c0 "#") as [-> | Hne].
  2:{ destruct c0 as [[] [] [] [] [] [] [] []]; try discriminate.
      now contradiction Hne. }
  cbn. intros Hwf. apply andb_prop in Hwf as [Hlen Hall].
  apply Nat.eqb_eq in Hlen.
  destruct digits as [| c1 [| c2 [| c3 [| c4 [| c5 [| c6 [| c7 rest]]]]]]];
    try discriminate Hlen.
  exists c1, c2, c3, c4, c5, c6. split; [reflexivity |].
  cbn in Hall.
  repeat (apply andb_prop in Hall as [?Hc Hall]).
  repeat constructor; assumption.
Qed.

Lemma darkened_ok_all (c1 c2 : ascii) :
  is_hex_lower c1 = true -> is_hex_lower c2 = true ->
  darkened_ok 0.3 c1 c2 = true.
Proof.
  intros H1 H2.
  assert (forallb (fun a => forallb (darkened_ok 0.3 a) lower_digits)
            lower_digits = true) as Hall by (vm_compute; reflexivity).
  rewrite forallb_forall in Hall.
  pose proof (Hall c1 (is_hex_lower_digit c1 H1)) as Hrow.
  rewrite forallb_forall in Hrow.
  exact (Hrow c2 (is_hex_lower_digit c2 H2)).
Qed.

Lemma unchanged_ok_all (c1 c2 : ascii) :
  is_hex_lower c1 = true -> is_hex_lower c2 = true ->
  unchanged_ok c1 c2 = true.
Proof.
  intros H1 H2.
  assert (forallb (fun a => forallb (unchanged_ok a) lower_digits)
            lower_digits = true) as Hall by (vm_compute; reflexivity).
  rewrite forallb_forall in Hall.
  pose proof (Hall c1 (is_hex_lower_digit c1 H1)) as Hrow.
  rewrite forallb_forall in Hrow.
  exact (Hrow c2 (is_hex_lower_digit c2 H2)).
Qed.

Lemma darken_channels (amount : float) (c1 c2 c3 c4 c5 c6 : ascii) :
  darken (String "#" (String c1 (String c2 (String c3 (String c4
            (String c5 (String c6 EmptyString))))))) amount
  = String "#" (darken_channel amount c1 c2
                ++ darken_channel amount c3 c4
                ++ darken_channel amount c5 c6)%string.
Proof. reflexivity. Qed.

Lemma hslToHex_channels (h s l : float) :
  hslToHex h s l
  = String "#" (channel_hex (shade h 0) s l
                ++ channel_hex (shade h 8) s l
                ++ channel_hex (shade h 4) s l)%string.
Proof. reflexivity. Qed.

(** Every factor of every hue of the band is listed in [band_shades]. *)
Lemma shade_check :
  forallb (fun h =>
    forallb (fun n => existsb (Leibniz.eqb (shade (number h) n)) band_shades)
      [0; 8; 4]%float)
    (seq 0 360) = true.
Proof. vm_compute. reflexivity. Qed.

(** Every channel of the band, factor by factor. *)
Lemma channel_check :
  forallb (fun t =>
    forallb (fun s =>
      forallb (fun l => two_digits (channel_hex t (number s) (number l)))
        (seq 40 10))
      (seq 60 20))
    band_shades = true.
Proof. vm_compute. reflexivity. Qed.

Lemma channel_two_digits (h s l : nat) (n : float) :
  h < 360 -> 60 <= s < 80 -> 40 <= l < 50 ->
  In n [0; 8; 4]%float ->
  two_digits (channel_hex (shade (number h) n) (number s) (number l)) = true.
Proof.
  intros Hh Hs Hl Hn.
  assert (In h (seq 0 360)) as Hin1 by (apply in_seq; lia).
  assert (In s (seq 60 20)) as Hin2 by (apply in_seq; lia).
  assert (In l (seq 40 10)) as Hin3 by (apply in_seq; lia).
  pose proof (proj1 (forallb_forall _ _) shade_check h Hin1) as Hrow.
  cbv beta in Hrow.
  pose proof (proj1 (forallb_forall _ _) Hrow n Hn) as Hex.
  cbv beta in Hex.
  apply existsb_exists in Hex as (t & Ht & Heq).
  apply FloatAxioms.Leibniz.eqb_spec in Heq. rewrite Heq.
  pose proof (proj1 (forallb_forall _ _) channel_check t Ht) as Hs1.
  cbv beta in Hs1.
  pose proof (proj1 (forallb_forall _ _) Hs1 s Hin2) as Hl1.
  cbv beta in Hl1.
  exact (proj1 (forallb_forall _ _) Hl1 l Hin3).
Qed.

(** X4. For every hue, saturation and lightness [randomHsl] can draw
    (integers of [0, 360), [60, 80) and [40, 50)), [hslToHex] returns [#]
    followed by six lower-case hexadecimal digits: a colour [darken] and
    [contrastForeground] can read back. *)
Theorem hslToHex_well_formed_on_band (h s l : nat) :
  h < 360 -> 60 <= s < 80 -> 40 <= l < 50 ->
  well_formed (hslToHex (number h) (number s) (number l)) = true.
Proof.
  intros Hh Hs Hl. rewrite hslToHex_channels.
  pose proof (channel_two_digits h s l 0%float Hh Hs Hl ltac:(now left)) as Hr.
  pose proof (channel_two_digits h s l 8%float Hh Hs Hl
                ltac:(right; now left)) as Hg.
  pose proof (channel_two_digits h s l 4%float Hh Hs Hl
                ltac:(right; right; now left)) as Hb.
  unfold two_digits in Hr, Hg, Hb.
  destruct (channel_hex (shade (number h) 0) _ _) as [| x1 [| y1 [| ? ?]]];
    try discriminate.
  destruct (channel_hex (shade (number h) 8) _ _) as [| x2 [| y2 [| ? ?]]];
    try discriminate.
  destruct (channel_hex (shade (number h) 4) _ _) as [| x3 [| y3 [| ? ?]]];
    try discriminate.
  apply andb_prop in Hr as [Hx1 Hy1].
  apply andb_prop in Hg as [Hx2 Hy2].
  apply andb_prop in Hb as [Hx3 Hy3].
  cbv [String.append]. unfold well_formed.
  cbn [String.length Nat.eqb list_ascii_of_string forallb andb].
  now rewrite Hx1, Hy1, Hx2, Hy2, Hx3, Hy3.
Qed.

(** X5. [darken] by 0.3, as [applyColor] uses it, takes a well-formed
    colour to a well-formed colour, and no channel of the result is above
    the channel it comes from. *)
Theorem darken_well_formed (hex : string) :
  well_formed hex = true ->
  well_formed (darken hex 0.3) = true
  /\ (channel (darken hex 0.3) 1 3 <=? channel hex 1 3)%float = true
  /\ (channel (darken hex 0.3) 3 5 <=? channel hex 3 5)%float = true
  /\ (channel (darken hex 0.3) 5 7 <=? channel hex 5 7)%float = true.
Proof.
  intros Hwf.
  destruct (well_formed_shape hex Hwf) as (c1 & c2 & c3 & c4 & c5 & c6 & -> & Hall).
  inversion Hall as [| ? ? H1 Hall1]; subst.
  inversion Hall1 as [| ? ? H2 Hall2]; subst.
  inversion Hall2 as [| ? ? H3 Hall3]; subst.
  inversion Hall3 as [| ? ? H4 Hall4]; subst.
  inversion Hall4 as [| ? ? H5 Hall5]; subst.
  inversion Hall5 as [| ? ? H6 _]; subst.
  rewrite darken_channels.
  pose proof (darkened_ok_all c1 c2 H1 H2) as Hr.
  pose proof (darkened_ok_all c3 c4 H3 H4) as Hg.
  pose proof (darkened_ok_all c5 c6 H5 H6) as Hb.
  unfold darkened_ok in Hr, Hg, Hb.
  destruct (darken_channel 0.3 c1 c2) as [| x1 [| y1 [| ? ?]]]; try discriminate.
  destruct (darken_channel 0.3 c3 c4) as [| x2 [| y2 [| ? ?]]]; try discriminate.
  destruct (darken_channel 0.3 c5 c6) as [| x3 [| y3 [| ? ?]]]; try discriminate.
  apply andb_prop in Hr as [Hr Hrle]. apply andb_prop in Hr as [Hx1 Hy1].
  apply andb_prop in Hg as [Hg Hgle]. apply andb_prop in Hg as [Hx2 Hy2].
  apply andb_prop in Hb as [Hb Hble]. apply andb_prop in Hb as [Hx3 Hy3].
  split.
  { cbv [String.append]. unfold well_formed.
    cbn [String.length Nat.eqb list_ascii_of_string forallb andb].
    now rewrite Hx1, Hy1, Hx2, Hy2, Hx3, Hy3. }
  split; [exact Hrle |]. split; [exact Hgle | exact Hble].
Qed.

(** X6. Darkening a well-formed colour by nothing gives the colour back:
    reading a channel from its two digits and writing it again is the
    identity. *)
Theorem darken_zero_identity (hex : string) :
  well_formed hex = true -> darken hex 0 = hex.
Proof.
  intros Hwf.
  destruct (well_formed_shape hex Hwf) as (c1 & c2 & c3 & c4 & c5 & c6 & -> & Hall).
  inversion Hall as [| ? ? H1 Hall1]; subst.
  inversion Hall1 as [| ? ? H2 Hall2]; subst.
  inversion Hall2 as [| ? ? H3 Hall3]; subst.
  inversion Hall3 as [| ? ? H4 Hall4]; subst.
  inversion Hall4 as [| ? ? H5 Hall5]; subst.
  inversion Hall5 as [| ? ? H6 _]; subst.
  rewrite darken_channels.
  pose proof (unchanged_ok_all c1 c2 H1 H2) as Hr.
  pose proof (unchanged_ok_all c3 c4 H3 H4) as Hg.
  pose proof (unchanged_ok_all c5 c6 H5 H6) as Hb.
  unfold unchanged_ok in Hr, Hg, Hb.
  apply String.eqb_eq in Hr, Hg, Hb. rewrite Hr, Hg, Hb. reflexivity.
Qed.

(** ** The palette over the blob *)

Section Palette.
Context `{Host}.

Lemma exec_applyColor_applied (color : string) (w : World) :
  exec (applyColor color) w = applied color w.
Proof.
  rewrite exec_applyColor. unfold applied, palette. cbv zeta.
  rewrite <- !insert_union_l, (left_id_L ∅ (∪)). reflexivity.
Qed.

Lemma palette_lookup (color k : string) :
  palette color !! k = None <-> includes MANAGED_KEYS k = false.
Proof.
  unfold palette. cbv zeta. rewrite !lookup_insert_None, lookup_empty.
  unfold includes, MANAGED_KEYS. cbn [existsb].
  rewrite !orb_false_iff, !String.eqb_neq.
  intuition congruence.
Qed.

Lemma palette_union_lookup (color : string) (m : blob) (k : string) :
  includes MANAGED_KEYS k = false -> (palette color ∪ m) !! k = m !! k.
Proof.
  intros Hk. apply palette_lookup with (color := color) in Hk.
  now rewrite lookup_union_r.
Qed.

(** Cleaning a blob that has no managed key changes nothing. *)
Lemma cleaned_of_unmanaged (m : blob) :
  (forall k, includes MANAGED_KEYS k = true -> m !! k = None) ->
  cleaned_of m = m.
Proof.
  intros Hm. apply map_eq. intros k. rewrite cleaned_of_lookup.
  destruct (includes MANAGED_KEYS k) eqn:Hk; [| reflexivity].
  symmetry. now apply Hm.
Qed.

Lemma cleaned_of_palette (color : string) (m : blob) :
  cleaned_of (palette color ∪ m) = cleaned_of m.
Proof.
  apply map_eq. intros k. rewrite !cleaned_of_lookup.
  destruct (includes MANAGED_KEYS k) eqn:Hk; [reflexivity |].
  now apply palette_union_lookup.
Qed.

(** The blob [clearColor] writes, from the blob it reads. *)
Lemma colorCustomizations_clearColor (w : World) :
  colorCustomizations (exec clearColor w)
  = let cleaned := cleaned_of (default ∅ (colorCustomizations w)) in
    if (0 <? size cleaned)%nat then Some cleaned else None.
Proof. reflexivity. Qed.

(** X7. Applying a palette and then clearing gives back the blob as it
    was, when it held no managed key (and was not an empty mapping): the
    shared configuration returns to its pristine state, unset included. *)
Theorem applyColor_clearColor_restores (color : string) (w : World) :
  (forall k, includes MANAGED_KEYS k = true -> blob_lookup w k = None) ->
  colorCustomizations w <> Some ∅ ->
  colorCustomizations (exec clearColor (exec (applyColor color) w))
  = colorCustomizations w.
Proof.
  intros Hm Hne. rewrite colorCustomizations_clearColor, exec_applyColor_applied.
  unfold applied. cbn [colorCustomizations log set_colorCustomizations from_option id].
  cbv zeta. rewrite cleaned_of_palette, (cleaned_of_unmanaged _ Hm).
  destruct (colorCustomizations w) as [m |] eqn:Hw; cbn [from_option id].
  - destruct (0 <? size m)%nat eqn:Hsz; [reflexivity |].
    apply Nat.ltb_ge in Hsz. exfalso. apply Hne. f_equal.
    apply map_size_empty_iff. lia.
  - now rewrite map_size_empty.
Qed.

End Palette.

(** ** The handler on a coloured branch *)

Section HandlerNamed.
Context `{Host}.

Lemma run_generateRandomColor (w : World) :
  run generateRandomColor w = (next_color w, after_draws w).
Proof. reflexivity. Qed.

(** The handler on a coloured branch, in one equation: the store is read;
    a colour found there is applied; otherwise one is generated, stored and
    applied. *)
Lemma exec_handleBranchChange_coloured (r : Repository) (b : string) (w : World) :
  coloured_branch r b w ->
  exec (handleBranchChange r) w
  = let key := colorKey (rootUri r) b in
    let w1 := log (EvGlobalStateGet key) w in
    match globalState w !! key with
    | Some c =>
        if String.eqb c EmptyString
        then applied (next_color w)
               (stored_at key (Some (next_color w)) (after_draws w1))
        else applied c w1
    | None =>
        applied (next_color w)
          (stored_at key (Some (next_color w)) (after_draws w1))
    end.
Proof.
  intros (Hhead & Hb & Hdef). unfold handleBranchChange. rewrite Hhead.
  apply String.eqb_neq in Hb. cbn [falsy]. rewrite Hb.
  cbn [default from_option id].
  unfold mbind at 1, prog_bind at 1. rewrite exec_bind, run_isDefaultBranch.
  cbn [fst]. rewrite Hdef. cbv zeta.
  destruct (globalState w !! colorKey (rootUri r) b) as [c |] eqn:Hst.
  - destruct (String.eqb c EmptyString) eqn:Hc.
    + rewrite <- exec_applyColor_applied. unfold exec. cbn.
      rewrite Hst. cbn. rewrite Hc. reflexivity.
    + rewrite <- exec_applyColor_applied. unfold exec. cbn.
      rewrite Hst. cbn. rewrite Hc. reflexivity.
  - rewrite <- exec_applyColor_applied. unfold exec. cbn.
    rewrite Hst. reflexivity.
Qed.

(** X8. On a coloured branch with an assignment in the store, the handler
    reads the store once, draws no random value, leaves the store as it
    is, and writes the blob with the palette of the stored colour laid
    over it. *)
Theorem handler_restores_assignment
    (r : Repository) (b c : string) (w : World) :
  coloured_branch r b w ->
  globalState w !! colorKey (rootUri r) b = Some c ->
  c <> EmptyString ->
  let w' := exec (handleBranchChange r) w in
  globalState w' = globalState w
  /\ drawn w' = drawn w
  /\ colorCustomizations w'
     = Some (palette c ∪ default ∅ (colorCustomizations w))
  /\ events w'
     = EvConfigUpdate (colorCustomizations w')
       :: EvGlobalStateGet (colorKey (rootUri r) b) :: events w.
Proof.
  intros Hb Hst Hc. cbv zeta.
  rewrite (exec_handleBranchChange_coloured r b w Hb). cbv zeta.
  rewrite Hst. apply String.eqb_neq in Hc. rewrite Hc.
  repeat split.
Qed.

(** X9. On a coloured branch without an assignment (none, or an empty
    string), the handler generates a colour from the next three random
    values, stores it under the key of the repository and branch and
    nowhere else, and writes the blob with its palette. *)
Theorem handler_creates_assignment
    (r : Repository) (b : string) (w : World) :
  coloured_branch r b w ->
  falsy (globalState w !! colorKey (rootUri r) b) = true ->
  let w' := exec (handleBranchChange r) w in
  let c := next_color w in
  c <> EmptyString
  /\ globalState w' = <[colorKey (rootUri r) b := c]> (globalState w)
  /\ drawn w' = 3 + drawn w
  /\ colorCustomizations w'
     = Some (palette c ∪ default ∅ (colorCustomizations w))
  /\ events w'
     = EvConfigUpdate (colorCustomizations w')
       :: EvGlobalStateUpdate (colorKey (rootUri r) b) (Some c)
       :: EvGlobalStateGet (colorKey (rootUri r) b) :: events w.
Proof.
  intros Hb Hst. cbv zeta.
  rewrite (exec_handleBranchChange_coloured r b w Hb). cbv zeta.
  split; [discriminate |].
  unfold falsy in Hst.
  destruct (globalState w !! colorKey (rootUri r) b) as [c |].
  - rewrite Hst. repeat split.
  - repeat split.
Qed.

End HandlerNamed.

(** ** The commands on a resolved repository *)

Section CommandsResolved.
Context `{Host}.

Lemma run_resolveRepository_Some (w : World) (r : Repository) :
  fst (run resolveRepository w) = Some r ->
  run resolveRepository w = (Some r, w).
Proof.
  intros Hr. pose proof (run_resolveRepository_world w) as Hw.
  destruct (run resolveRepository w) as [x w']. cbn [fst snd] in *.
  now subst.
Qed.

Lemma exec_clear_resolved (w : World) (r : Repository) (b : string) :
  fst (run resolveRepository w) = Some r ->
  HEAD_name r = Some b -> b <> EmptyString ->
  exec clear w
  = log (EvInformation "Worktree Rainbow: Color cleared.")
      (exec clearColor (stored_at (colorKey (rootUri r) b) None w)).
Proof.
  intros Hr Hhead Hb. apply run_resolveRepository_Some in Hr.
  assert (exec resolveRepository w = w) as Hw by (unfold exec; now rewrite Hr).
  apply String.eqb_neq in Hb.
  unfold clear, mbind, prog_bind. rewrite !exec_bind, Hr, Hw. cbn [fst snd].
  rewrite Hhead. cbn [falsy]. rewrite Hb. reflexivity.
Qed.

Lemma exec_reroll_coloured (w : World) (r : Repository) (b : string) :
  fst (run resolveRepository w) = Some r ->
  coloured_branch r b w ->
  exec reroll w
  = log (EvInformation
           ("Worktree Rainbow: New color " ++ next_color w ++ " for "
            ++ quoted b)%string)
      (applied (next_color w)
         (stored_at (colorKey (rootUri r) b) (Some (next_color w))
            (after_draws w))).
Proof.
  intros Hr (Hhead & Hb & Hdef). apply run_resolveRepository_Some in Hr.
  assert (exec resolveRepository w = w) as Hw by (unfold exec; now rewrite Hr).
  apply String.eqb_neq in Hb.
  unfold reroll, mbind, prog_bind. rewrite exec_bind, Hr, Hw. cbn [fst snd].
  rewrite Hhead. cbn [falsy]. rewrite Hb. cbn [default from_option id].
  rewrite exec_bind, run_isDefaultBranch. cbn [fst snd]. rewrite Hdef.
  rewrite <- exec_applyColor_applied. reflexivity.
Qed.

(** X10. Clear on a resolved repository with a branch deletes the
    assignment of that repository and branch and no other, whether the
    branch is a default branch or not, removes the managed keys from the
    blob, and reports the clearing. *)
Theorem clear_erases_assignment (w : World) (r : Repository) (b : string) :
  fst (run resolveRepository w) = Some r ->
  HEAD_name r = Some b -> b <> EmptyString ->
  let w' := exec clear w in
  let key := colorKey (rootUri r) b in
  globalState w' = delete key (globalState w)
  /\ globalState w' !! key = None
  /\ (forall k, k <> key -> globalState w' !! k = globalState w !! k)
  /\ (forall k, blob_lookup w' k
                = if includes MANAGED_KEYS k then None else blob_lookup w k)
  /\ drawn w' = drawn w
  /\ events w'
     = EvInformation "Worktree Rainbow: Color cleared."
       :: EvConfigUpdate (colorCustomizations w')
       :: EvGlobalStateUpdate key None :: events w.
Proof.
  intros Hr Hhead Hb. cbv zeta.
  rewrite (exec_clear_resolved w r b Hr Hhead Hb).
  split; [reflexivity |].
  split; [cbn; apply lookup_delete_eq |].
  split; [intros k Hk; cbn; now apply lookup_delete_ne |].
  split; [| split; reflexivity].
  intros k.
  change (blob_lookup (exec clearColor
                         (stored_at (colorKey (rootUri r) b) None w)) k
          = if includes MANAGED_KEYS k then None else blob_lookup w k).
  now rewrite blob_lookup_clearColor.
Qed.

(** X11. Reroll on a resolved repository with a coloured branch never
    reads the store: it generates a colour from the next three random
    values, overwrites the assignment of that repository and branch with
    it, writes the blob with its palette and reports the colour. *)
Theorem reroll_assigns_fresh_colour (w : World) (r : Repository) (b : string) :
  fst (run resolveRepository w) = Some r ->
  coloured_branch r b w ->
  let w' := exec reroll w in
  let c := next_color w in
  let key := colorKey (rootUri r) b in
  globalState w' = <[key := c]> (globalState w)
  /\ drawn w' = 3 + drawn w
  /\ colorCustomizations w'
     = Some (palette c ∪ default ∅ (colorCustomizations w))
  /\ events w'
     = EvInformation ("Worktree Rainbow: New color " ++ c ++ " for "
                      ++ quoted b)%string
       :: EvConfigUpdate (colorCustomizations w')
       :: EvGlobalStateUpdate key (Some c) :: events w.
Proof.
  intros Hr Hb. cbv zeta. rewrite (exec_reroll_coloured w r b Hr Hb).
  split; [reflexivity |]. split; [reflexivity |]. split; reflexivity.
Qed.

End CommandsResolved.

(** ** The further properties at concrete inputs *)

Lemma coloured_inner : coloured_branch inner_repo "feat/login" nested_world.
Proof. split; [reflexivity | split; [discriminate | reflexivity]]. Qed.

Lemma resolve_inner : fst (run resolveRepository nested_world) = Some inner_repo.
Proof. reflexivity. Qed.

(** X4 at work: the band's colour of hue 0, saturation 70, lightness 45. *)
Lemma hslToHex_well_formed_example :
  well_formed (hslToHex (number 0) (number 70) (number 45)) = true.
Proof. apply (hslToHex_well_formed_on_band 0 70 45); lia. Defined.

(** X5 at work on [#c32222]. *)
Lemma darken_well_formed_example :
  well_formed (darken "#c32222" 0.3) = true
  /\ (channel (darken "#c32222" 0.3) 1 3 <=? channel "#c32222" 1 3)%float = true
  /\ (channel (darken "#c32222" 0.3) 3 5 <=? channel "#c32222" 3 5)%float = true
  /\ (channel (darken "#c32222" 0.3) 5 7 <=? channel "#c32222" 5 7)%float = true.
Proof. apply (darken_well_formed "#c32222"). reflexivity. Defined.

(** X6 at work on [#c32222]. *)
Lemma darken_zero_identity_example : darken "#c32222" 0 = "#c32222".
Proof. apply (darken_zero_identity "#c32222"). reflexivity. Defined.

(** X7 at work: a blob with [foo.bar = 1] only comes back as it was. *)
Lemma applyColor_clearColor_restores_example :
  colorCustomizations (exec clearColor (exec (applyColor "#c32222") sample_world))
  = colorCustomizations sample_world.
Proof.
  apply (applyColor_clearColor_restores "#c32222" sample_world).
  - intros k Hk. apply includes_elem_of in Hk. unfold MANAGED_KEYS in Hk.
    repeat (apply elem_of_cons in Hk as [-> | Hk]; [reflexivity |]).
    now apply elem_of_nil in Hk.
  - intros Heq. apply (f_equal (fun o => o ≫= (.!! "foo.bar"))) in Heq.
    vm_compute in Heq. discriminate Heq.
Defined.

(** X8 at work: the colour stored for [feat/login] is restored. *)
Lemma handler_restores_assignment_example :
  let w' := exec (handleBranchChange inner_repo) nested_world in
  globalState w' = globalState nested_world
  /\ drawn w' = drawn nested_world
  /\ colorCustomizations w'
     = Some (palette "#c32222" ∪ default ∅ (colorCustomizations nested_world))
  /\ events w'
     = EvConfigUpdate (colorCustomizations w')
       :: EvGlobalStateGet (colorKey (rootUri inner_repo) "feat/login")
       :: events nested_world.
Proof.
  apply (handler_restores_assignment inner_repo "feat/login" "#c32222" nested_world).
  - exact coloured_inner.
  - reflexivity.
  - discriminate.
Defined.

Lemma coloured_feature : coloured_branch feature_repo "feat/login" sample_world.
Proof. split; [reflexivity | split; [discriminate | reflexivity]]. Qed.

(** X9 at work: a fresh repository on [feat/login]. *)
Lemma handler_creates_assignment_example :
  let w' := exec (handleBranchChange feature_repo) sample_world in
  let c := next_color sample_world in
  c <> EmptyString
  /\ globalState w'
     = <[colorKey (rootUri feature_repo) "feat/login" := c]>
         (globalState sample_world)
  /\ drawn w' = 3 + drawn sample_world
  /\ colorCustomizations w'
     = Some (palette c ∪ default ∅ (colorCustomizations sample_world))
  /\ events w'
     = EvConfigUpdate (colorCustomizations w')
       :: EvGlobalStateUpdate (colorKey (rootUri feature_repo) "feat/login") (Some c)
       :: EvGlobalStateGet (colorKey (rootUri feature_repo) "feat/login")
       :: events sample_world.
Proof.
  apply (handler_creates_assignment feature_repo "feat/login" sample_world).
  - exact coloured_feature.
  - reflexivity.
Defined.

(** X10 at work. *)
Lemma clear_erases_assignment_example :
  let w' := exec clear nested_world in
  let key := colorKey (rootUri inner_repo) "feat/login" in
  globalState w' = delete key (globalState nested_world)
  /\ globalState w' !! key = None
  /\ (forall k, k <> key -> globalState w' !! k = globalState nested_world !! k)
  /\ (forall k, blob_lookup w' k
                = if includes MANAGED_KEYS k then None
                  else blob_lookup nested_world k)
  /\ drawn w' = drawn nested_world
  /\ events w'
     = EvInformation "Worktree Rainbow: Color cleared."
       :: EvConfigUpdate (colorCustomizations w')
       :: EvGlobalStateUpdate key None :: events nested_world.
Proof.
  apply (clear_erases_assignment nested_world inner_repo "feat/login").
  - exact resolve_inner.
  - reflexivity.
  - discriminate.
Defined.

(** X11 at work. *)
Lemma reroll_assigns_fresh_colour_example :
  let w' := exec reroll nested_world in
  let c := next_color nested_world in
  let key := colorKey (rootUri inner_repo) "feat/login" in
  globalState w' = <[key := c]> (globalState nested_world)
  /\ drawn w' = 3 + drawn nested_world
  /\ colorCustomizations w'
     = Some (palette c ∪ default ∅ (colorCustomizations nested_world))
  /\ events w'
     = EvInformation ("Worktree Rainbow: New color " ++ c ++ " for "
                      ++ quoted "feat/login")%string
       :: EvConfigUpdate (colorCustomizations w')
       :: EvGlobalStateUpdate key (Some c) :: events nested_world.
Proof.
  apply (reroll_assigns_fresh_colour nested_world inner_repo "feat/login").
  - exact resolve_inner.
  - exact coloured_inner.
Defined.
